(** * data_loader: the OpenDART acquisition pipeline

    A shallow embedding of [src/data_loader.py]: the code-directory fetcher
    [get_listed_corp_codes], the detail enricher [get_kospi_company_info],
    and the persistence helper [save_df_to_csv].

    The three functions are glue over the interpreter and over third-party
    libraries (requests, zipfile, ElementTree, pandas, OpenDartReader).  The
    Python code is embedded as programs of a state-and-exception monad over a
    [World] that records what the script can observe or change: the console,
    the pauses it took, the directories and files on disk and the keys it
    sent to the detail endpoint.  What the outside does (the remote server,
    operating-system failures, the codecs) is an [Env] the programs are
    parameterised by.

    The dict display of [get_kospi_company_info] (lines 140-150) is
    embedded as the tokens the source has and parsed by Python's rule for
    a display; the function is what the interpreter makes of it. *)

From Stdlib Require Import String Ascii List ZArith Lia.
From Stdlib Require QArith.
From stdpp Require Import base option list gmap strings pretty.
Import ListNotations.

Local Open Scope string_scope.
Local Open Scope list_scope.

(** ** Python values used by the script *)

(** A [str] is a [string], a sequence of characters of which
    [String.length] is the [len]; the bytes of a file or of an HTTP body
    are a [string] too.  The script only measures, compares, concatenates
    and passes strings on. *)

(** A cell of a table, a dict value or the result of [findtext]: a [str] or
    [None]. *)
Definition pyval : Type := option string.

(** [f"{v}"] for such a value. *)
Definition fmt (v : pyval) : string :=
  match v with
  | Some s => s
  | None => "None"
  end.

(** [bool(v)]: [None] and the empty [str] are falsy. *)
Definition truthy (v : pyval) : bool :=
  match v with
  | Some s => negb (String.eqb s EmptyString)
  | None => false
  end.

(** [len(v) == n].  The script evaluates it to the right of [v and ...],
    so only for a truthy [v]: [None] never reaches [len]. *)
Definition len_is (v : pyval) (n : nat) : bool :=
  match v with
  | Some s => (String.length s =? n)%nat
  | None => false
  end.

(** ** Exceptions *)

(** The exception classes that the script names in an [except] clause or
    that the calls it makes raise, with the interpreter's class hierarchy
    ([requests.exceptions.RequestException] derives from [IOError], that is
    [OSError]; [xml.etree.ElementTree.ParseError] from [SyntaxError]). *)
Inductive exn_class : Type :=
  | BaseException
  | KeyboardInterrupt
  | SystemExit
  | Exception
  | OSError
  | FileNotFoundError
  | PermissionError
  | RequestException
  | HTTPError
  | RequestsConnectionError
  | Timeout
  | ChunkedEncodingError
  | BadZipFile
  | SyntaxError
  | ParseError
  | LookupError
  | KeyError
  | ValueError.

#[global] Instance exn_class_eq_dec : EqDecision exn_class.
Proof. solve_decision. Defined.

Definition base_class (c : exn_class) : option exn_class :=
  match c with
  | BaseException => None
  | KeyboardInterrupt | SystemExit | Exception => Some BaseException
  | OSError | BadZipFile | SyntaxError | LookupError | ValueError =>
      Some Exception
  | FileNotFoundError | PermissionError | RequestException => Some OSError
  | HTTPError | RequestsConnectionError | Timeout | ChunkedEncodingError =>
      Some RequestException
  | ParseError => Some SyntaxError
  | KeyError => Some LookupError
  end.

Fixpoint climbs (fuel : nat) (c d : exn_class) : bool :=
  if bool_decide (c = d) then true
  else match fuel with
       | O => false
       | S fuel' =>
           match base_class c with
           | Some p => climbs fuel' p d
           | None => false
           end
       end.

(** [issubclass(c, d)]; the hierarchy above is four levels deep. *)
Definition issubclass (c d : exn_class) : bool := climbs 4 c d.

Record exn : Type := Exn { exn_cls : exn_class; exn_msg : string }.

(** [isinstance(e, c)], the test of [except c as e]. *)
Definition isinstance (e : exn) (c : exn_class) : bool :=
  issubclass (exn_cls e) c.

(** How a call ends. *)
Inductive outcome (A : Type) : Type :=
  | Returned (a : A)
  | Raised (e : exn).
Arguments Returned {A} a.
Arguments Raised {A} e.

(** ** The world

    Files and directories are keyed by the spelling of their path.  The
    script builds each path it uses with [os.path.join] from [output_dir]
    and normalises none, and the properties below speak of the paths it
    builds.  Two spellings of one file (["a/b"] and ["a//b"], or a link)
    are two keys here: nothing below says what a run does to a file that
    is named by another spelling. *)

Record World : Type := mkWorld {
  stdout : list string;            (* lines written by [print] *)
  naps : list QArith_base.Q;       (* arguments of [time.sleep], in order *)
  dirs : gset string;              (* directories on disk *)
  files : gmap string string;      (* regular files: path to content *)
  asked : list pyval               (* keys sent to the detail endpoint *)
}.

Definition with_stdout (f : list string → list string) (w : World) : World :=
  mkWorld (f (stdout w)) (naps w) (dirs w) (files w) (asked w).
Definition with_naps (f : list QArith_base.Q → list QArith_base.Q) (w : World) : World :=
  mkWorld (stdout w) (f (naps w)) (dirs w) (files w) (asked w).
Definition with_dirs (f : gset string → gset string) (w : World) : World :=
  mkWorld (stdout w) (naps w) (f (dirs w)) (files w) (asked w).
Definition with_files (f : gmap string string → gmap string string) (w : World) : World :=
  mkWorld (stdout w) (naps w) (dirs w) (f (files w)) (asked w).
Definition with_asked (f : list pyval → list pyval) (w : World) : World :=
  mkWorld (stdout w) (naps w) (dirs w) (files w) (f (asked w)).

(** ** The monad of the script: state and exceptions *)

Definition M (A : Type) : Type := World → outcome A * World.

Definition ret {A} (a : A) : M A := fun w => (Returned a, w).

Definition raise {A} (e : exn) : M A := fun w => (Raised e, w).

Definition bind {A B} (m : M A) (k : A → M B) : M B :=
  fun w =>
    match m w with
    | (Returned a, w') => k a w'
    | (Raised e, w') => (Raised e, w')
    end.

Declare Scope py_scope.
Delimit Scope py_scope with py.
Notation "x <- m ;; k" := (bind m (fun x => k))
  (at level 100, m at next level, right associativity) : py_scope.
Notation "m ;;; k" := (bind m (fun _ => k))
  (at level 100, right associativity) : py_scope.
Local Open Scope py_scope.

(** [try: body  except cls as e: handler(e)], followed by [rest].  The
    handler and [rest] run outside the guarded block: what they raise is not
    caught here.  A handler that ends in [return] is one that does not go on
    to [rest], so [rest] is taken only after a [body] that completed. *)
Definition try_except {A B} (body : M A) (cls : exn_class)
    (handler : exn → M B) (rest : A → M B) : M B :=
  fun w =>
    match body w with
    | (Returned a, w') => rest a w'
    | (Raised e, w') =>
        if isinstance e cls then handler e w' else (Raised e, w')
    end.

(** [print(msg)] *)
Definition print (msg : string) : M unit :=
  fun w => (Returned tt, with_stdout (fun out => out ++ [msg]) w).

(** [time.sleep(secs)] *)
Definition time_sleep (secs : QArith_base.Q) : M unit :=
  fun w => (Returned tt, with_naps (fun ns => ns ++ [secs]) w).

(** ** os.path (POSIX flavour) *)

Definition is_sep (c : ascii) : bool := Ascii.eqb c "/"%char.

Fixpoint lstrip (P : ascii → bool) (l : list ascii) : list ascii :=
  match l with
  | [] => []
  | c :: l' => if P c then lstrip P l' else l
  end.

(** [l.rstrip] of the characters satisfying [P]. *)
Definition rstrip (P : ascii → bool) (l : list ascii) : list ascii :=
  rev (lstrip P (rev l)).

(** [os.path.dirname(p)]:
    [i = p.rfind('/') + 1; head = p[:i];
     if head and head != '/'*len(head): head = head.rstrip('/')]. *)
Definition os_path_dirname (p : string) : string :=
  let head := rstrip (fun c => negb (is_sep c)) (list_ascii_of_string p) in
  let head :=
    if negb (bool_decide (head = [])) && negb (forallb is_sep head)
    then rstrip is_sep head
    else head in
  string_of_list_ascii head.

Definition endswith_sep (a : string) : bool :=
  match rev (list_ascii_of_string a) with
  | c :: _ => is_sep c
  | [] => false
  end.

(** [os.path.join(a, b)] *)
Definition os_path_join (a b : string) : string :=
  if String.prefix "/" b then b
  else if String.eqb a EmptyString || endswith_sep a then a +:+ b
  else a +:+ "/" +:+ b.

(** [BASE_DATA_DIR], the default [output_dir] of both stages. *)
Definition BASE_DATA_DIR : string := os_path_join "data" "raw".

Definition all_sep (p : string) : bool :=
  forallb is_sep (list_ascii_of_string p).

(** A path and the directories above it, nearest first: what
    [os.makedirs(name)] leaves in existence. *)
Fixpoint lineage_upto (fuel : nat) (name : string) : list string :=
  match fuel with
  | O => []
  | S fuel' =>
      if all_sep name then []
      else name :: lineage_upto fuel' (os_path_dirname name)
  end.

Definition lineage (name : string) : list string :=
  lineage_upto (String.length name) name.

(** ** The environment *)

(** Operations on the file system that the operating system may refuse. *)
Inductive fs_op : Type :=
  | Makedirs (name : string)
  | OpenWrite (path : string)
  | FWrite (path : string)
  | OpenRead (path : string).

(** A streamed HTTP response ([requests.get(url, stream=True)]): the status
    line is there, the body arrives chunk by chunk while [iter_content] is
    consumed and the transfer may break after some chunks. *)
Record Response : Type := mkResponse {
  status_code : Z;
  reason : string;
  url : string;
  body_chunks : list string;
  body_break : option exn
}.

(** An XML element as far as the script looks at it. *)
#[warnings="-register-all"] Inductive Element : Type :=
  | Elem (tag : string) (text : option string) (children : list Element).

Definition tag_of (e : Element) : string :=
  match e with Elem t _ _ => t end.
Definition text_of (e : Element) : option string :=
  match e with Elem _ t _ => t end.
Definition children_of (e : Element) : list Element :=
  match e with Elem _ _ c => c end.

(** The members of a zip archive, by name. *)
Definition Archive : Type := list (string * string).

(** What the outside does during a run.  The answers are fixed for the
    length of a run: the same request gets the same answer and an
    operation on a path fails, if it does, each time it is tried. *)
Record Env : Type := mkEnv {
  (* requests.get(url, stream=True): the response, or what it raises *)
  http_get : string → outcome Response;
  (* the error, if any, with which an operation on the file system fails
     (permission, disk, encoding) *)
  os_fault : fs_op → option exn;
  (* the zip decoder: None for bytes that are not a zip archive *)
  unzip : string → option Archive;
  (* the XML parser: the root element, or the message of the ParseError *)
  xml_parse : string → Element + string
}.

(** pandas' rendering of a table with rows of type [R] as CSV text: what
    [df.to_csv(index=index)] writes; with [index] false the text has no
    column of row labels. *)
Class Tabular (R : Type) : Type :=
  to_csv_text : list R → bool → string.

(** ** Records of the two tables *)

Module Listed.
(** A row of [corp_list]: the dict appended at lines 101-106. *)
Record row : Type := mk {
  corp_code : pyval;
  corp_name : pyval;
  corp_eng_name : pyval;
  stock_code : pyval
}.
End Listed.

Module Kospi.
(** The nine columns that lines 140-150 name, as a record; sample tables
    for [save_df_to_csv] are made of it. *)
Record row : Type := mk {
  corp_name : pyval;
  corp_code : pyval;
  stock_code : pyval;
  ceo_name : pyval;
  industry_code : pyval;
  established_date : pyval;
  ir_url : pyval;
  corp_reg_number : pyval;
  business_no : pyval
}.
End Kospi.

(** What [dart_reader.company] returns: [None] or a dict of named fields. *)
Definition Info : Type := option (gmap string pyval).

(** [info.get(key)] *)
Definition dict_get (d : gmap string pyval) (key : string) : pyval :=
  default None (d !! key).

(** The detail-lookup client: its answer to a key, given the keys it was
    asked before (the remote side keeps state). *)
Definition DartReader : Type := list pyval → pyval → outcome Info.

(** ** ElementTree *)

(** [root.findall(name)]: the direct children with that tag, in document
    order. *)
Definition findall (e : Element) (name : string) : list Element :=
  List.filter (fun c => String.eqb (tag_of c) name) (children_of e).

(** [corp.findtext(name)]: the text of the first direct child with that
    tag, the empty string when that child has no text, [None] when there is
    no such child. *)
Definition findtext (e : Element) (name : string) : pyval :=
  match findall e name with
  | c :: _ => Some (default EmptyString (text_of c))
  | [] => None
  end.

Section Script.

Context (env : Env).

(** ** Calls into the libraries *)

(** [requests.get(url, stream=True)] *)
Definition requests_get (u : string) : M Response :=
  fun w => (http_get env u, w).

(** [response.raise_for_status()] *)
Definition raise_for_status (r : Response) : M unit :=
  let line kind :=
    pretty (status_code r) +:+ kind +:+ reason r +:+ " for url: " +:+ url r in
  if (400 <=? status_code r)%Z && (status_code r <? 500)%Z
  then raise (Exn HTTPError (line " Client Error: "))
  else if (500 <=? status_code r)%Z && (status_code r <? 600)%Z
  then raise (Exn HTTPError (line " Server Error: "))
  else ret tt.

(** [os.makedirs(name, exist_ok=True)] *)
Definition os_makedirs (name : string) : M unit :=
  fun w =>
    if String.eqb name EmptyString
    then (Raised (Exn FileNotFoundError
                    "[Errno 2] No such file or directory: ''"), w)
    else match os_fault env (Makedirs name) with
         | Some e => (Raised e, w)
         | None =>
             (Returned tt,
              with_dirs (fun ds => list_to_set (lineage name) ∪ ds) w)
         end.

(** [open(path, 'wb')]: the file is created or truncated. *)
Definition open_wb (path : string) : M unit :=
  fun w =>
    match os_fault env (OpenWrite path) with
    | Some e => (Raised e, w)
    | None => (Returned tt, with_files (insert path EmptyString) w)
    end.

(** [f.write(chunk)] on a file opened at [path]. *)
Definition f_write (path chunk : string) : M unit :=
  fun w =>
    match os_fault env (FWrite path) with
    | Some e => (Raised e, w)
    | None =>
        (Returned tt,
         with_files
           (fun fs => <[path := default EmptyString (fs !! path) +:+ chunk]> fs)
           w)
    end.

(** [for chunk in response.iter_content(chunk_size=8192): f.write(chunk)] *)
Fixpoint write_chunks (path : string) (chunks : list string) : M unit :=
  match chunks with
  | [] => ret tt
  | chunk :: more => f_write path chunk ;;; write_chunks path more
  end.

Definition download_to (path : string) (r : Response) : M unit :=
  write_chunks path (body_chunks r) ;;;
  match body_break r with
  | Some e => raise e
  | None => ret tt
  end.

Definition read_file (path : string) : M string :=
  fun w =>
    match os_fault env (OpenRead path) with
    | Some e => (Raised e, w)
    | None =>
        match files w !! path with
        | Some content => (Returned content, w)
        | None =>
            (Raised (Exn FileNotFoundError
                       ("[Errno 2] No such file or directory: '" +:+ path +:+ "'")),
             w)
        end
    end.

(** [zipfile.ZipFile(path, 'r')] *)
Definition ZipFile (path : string) : M Archive :=
  content <- read_file path ;;
  match unzip env content with
  | Some z => ret z
  | None => raise (Exn BadZipFile "File is not a zip file")
  end.

Fixpoint member_data (z : Archive) (member : string) : option string :=
  match z with
  | [] => None
  | (name, data) :: z' =>
      if String.eqb name member then Some data else member_data z' member
  end.

(** [z.extract(member, path=path)] *)
Definition zip_extract (z : Archive) (member path : string) : M unit :=
  match member_data z member with
  | None =>
      raise (Exn KeyError
               ("There is no item named '" +:+ member +:+ "' in the archive"))
  | Some data =>
      open_wb (os_path_join path member) ;;;
      f_write (os_path_join path member) data
  end.

(** [ET.parse(path).getroot()] *)
Definition ET_parse (path : string) : M Element :=
  content <- read_file path ;;
  match xml_parse env content with
  | inl root => ret root
  | inr msg => raise (Exn ParseError msg)
  end.

(** [df.to_csv(file_path, index=index)] *)
Definition DataFrame_to_csv {R} `{Tabular R} (df : list R)
    (file_path : string) (index : bool) : M unit :=
  open_wb file_path ;;;
  f_write file_path (to_csv_text df index).

(** ** save_df_to_csv (lines 163-173) *)

Definition save_df_to_csv {R} `{Tabular R} (df : list R)
    (file_path : string) (index : bool) : M unit :=
  os_makedirs (os_path_dirname file_path) ;;;
  try_except (DataFrame_to_csv df file_path index) Exception
    (fun e =>
       print ("Error saving DataFrame to CSV " +:+ file_path +:+ ": " +:+ exn_msg e))
    ret.

(** ** get_listed_corp_codes (lines 44-112) *)

(** One turn of the loop at lines 98-106. *)
Definition collect_corp (corp_list : list Listed.row) (corp : Element)
    : list Listed.row :=
  let stock_code := findtext corp "stock_code" in
  if truthy stock_code && len_is stock_code 6
  then corp_list ++
       [ {| Listed.corp_code := findtext corp "corp_code";
            Listed.corp_name := findtext corp "corp_name";
            Listed.corp_eng_name := findtext corp "corp_eng_name";
            Listed.stock_code := stock_code |} ]
  else corp_list.

Definition collect_listed (root : Element) : list Listed.row :=
  fold_left collect_corp (findall root "list") [].

Definition get_listed_corp_codes `{Tabular Listed.row}
    (api_key output_dir : string) : M (list Listed.row) :=
  print "Fetching all corporation codes from OpenDART..." ;;;
  let url_code :=
    "https://opendart.fss.or.kr/api/corpCode.xml?crtfc_key=" +:+ api_key in
  try_except
    (response <- requests_get url_code ;;
     raise_for_status response ;;;
     ret response)
    RequestException
    (fun e =>
       print ("Error fetching corporation codes: " +:+ exn_msg e) ;;;
       ret [])
    (fun response =>
       let corp_data_path := os_path_join output_dir "dart_corp_data" in
       os_makedirs corp_data_path ;;;
       let xml_zip_path := os_path_join corp_data_path "CORPCODE.zip" in
       let xml_path := os_path_join corp_data_path "CORPCODE.xml" in
       open_wb xml_zip_path ;;;
       download_to xml_zip_path response ;;;
       try_except
         (z <- ZipFile xml_zip_path ;;
          zip_extract z "CORPCODE.xml" corp_data_path ;;;
          print ("CORPCODE.xml extracted to " +:+ xml_path))
         BadZipFile
         (fun _ =>
            print "Error: Downloaded file is not a valid zip file. Check API key or response content." ;;;
            ret [])
         (fun _ =>
            try_except (ET_parse xml_path) ParseError
              (fun e =>
                 print ("Error parsing CORPCODE.xml: " +:+ exn_msg e) ;;;
                 ret [])
              (fun root =>
                 let corp_list := collect_listed root in
                 let corp_codes_df := corp_list in
                 let output_filepath :=
                   os_path_join output_dir "listed_corp_codes.csv" in
                 save_df_to_csv corp_codes_df output_filepath false ;;;
                 print ("Saved " +:+ pretty (length corp_codes_df)
                        +:+ " listed corporation codes to " +:+ output_filepath) ;;;
                 ret corp_codes_df))).

(** ** get_kospi_company_info (lines 115-161) *)

(** [dart_reader.company(corp_code)] *)
Definition company (dart_reader : DartReader) (corp : pyval) : M Info :=
  fun w =>
    (dart_reader (asked w) corp, with_asked (fun ks => ks ++ [corp]) w).

(** [bool(info)]: [None] and the empty dict are falsy. *)
Definition truthy_info (info : Info) : bool :=
  match info with
  | Some d => negb (bool_decide (d = ∅))
  | None => false
  end.

(** [info.get('corp_cls') == 'Y'], evaluated only for a truthy [info]. *)
Definition corp_cls_is_Y (info : Info) : bool :=
  match info with
  | Some d => bool_decide (dict_get d "corp_cls" = Some "Y")
  | None => false
  end.

(** *** The dict display of lines 140-150 *)

(** The tokens of a dict display whose keys are string literals and whose
    values are calls [info.get('...')]; such a call stands as one token. *)
Inductive token : Type :=
  | LBRACE
  | RBRACE
  | COLON
  | COMMA
  | STRING (s : string)
  | INFO_GET (key : string).

(** Python's rule for the items of a dict display: [key : value] items
    with a comma between any two of them and, if one likes, a comma after
    the last; the closing brace ends them.  The result pairs each key with
    the field of [info] that its value reads. *)
Fixpoint parse_items (ts : list token) : option (list (string * string)) :=
  match ts with
  | STRING key :: COLON :: INFO_GET field :: rest =>
      match rest with
      | [RBRACE] => Some [(key, field)]
      | [COMMA; RBRACE] => Some [(key, field)]
      | COMMA :: more =>
          match parse_items more with
          | Some items => Some ((key, field) :: items)
          | None => None
          end
      | _ => None
      end
  | _ => None
  end.

Definition parse_dict_display (ts : list token)
    : option (list (string * string)) :=
  match ts with
  | [LBRACE; RBRACE] => Some []
  | LBRACE :: items => parse_items items
  | _ => None
  end.

(** The display as the source has it, line by line: line 147, the
    ['ir_url'] item, ends without a comma. *)
Definition data_append_display : list token :=
  [ LBRACE;
    STRING "corp_name"; COLON; INFO_GET "corp_name"; COMMA;
    STRING "corp_code"; COLON; INFO_GET "corp_code"; COMMA;
    STRING "stock_code"; COLON; INFO_GET "stock_code"; COMMA;
    STRING "ceo_name"; COLON; INFO_GET "ceo_nm"; COMMA;
    STRING "industry_code"; COLON; INFO_GET "induty_code"; COMMA;
    STRING "established_date"; COLON; INFO_GET "est_dt"; COMMA;
    STRING "ir_url"; COLON; INFO_GET "ir_url";
    STRING "corp_reg_number"; COLON; INFO_GET "jurir_no"; COMMA;
    STRING "business_no"; COLON; INFO_GET "bizr_no";
    RBRACE ].

(** A row of [data]: a dict, its keys in the order of the display. *)
Definition dict_row : Type := list (string * pyval).

(** The dict that a parsed display denotes for the response [d]. *)
Definition eval_display (items : list (string * string))
    (d : gmap string pyval) : dict_row :=
  map (fun item => (item.1, dict_get d item.2)) items.

(** Lines 139-150, for the display parsed to [items]. *)
Definition append_if_kospi (items : list (string * string))
    (data : list dict_row) (info : Info) : list dict_row :=
  if truthy_info info && corp_cls_is_Y info
  then match info with
       | Some d => data ++ [eval_display items d]
       | None => data
       end
  else data.

(** The pause of line 152, [time.sleep(0.7)]. *)
Definition PAUSE : QArith_base.Q := QArith_base.Qmake 7 10.

(** The body of the loop at lines 132-155, for one row. *)
Definition enrich_row (items : list (string * string))
    (dart_reader : DartReader) (data : list dict_row) (row : Listed.row)
    : M (list dict_row) :=
  let corp_code := Listed.corp_code row in
  let corp_name := Listed.corp_name row in
  try_except
    (info <- company dart_reader corp_code ;;
     let data := append_if_kospi items data info in
     time_sleep PAUSE ;;;
     ret data)
    Exception
    (fun e =>
       print ("Failed to fetch company info for " +:+ fmt corp_name
              +:+ " (" +:+ fmt corp_code +:+ "): " +:+ exn_msg e) ;;;
       ret data)
    ret.

(** [for i, row in corp_codes_df.iterrows(): ...] *)
Fixpoint enrich_rows (items : list (string * string))
    (dart_reader : DartReader) (rows : list Listed.row)
    (data : list dict_row) : M (list dict_row) :=
  match rows with
  | [] => ret data
  | row :: more =>
      data' <- enrich_row items dart_reader data row ;;
      enrich_rows items dart_reader more data'
  end.

(** The function as the interpreter has it.  Python compiles the whole
    text of a file before any of it runs: a display that does not parse is
    a [SyntaxError] (the message is that of CPython 3.10 and later) raised
    when the module is loaded, and the function never comes to exist.  The
    embedding gives that error as the outcome of every call; the loop and
    the save are what the call would run for a display that parses. *)
Definition get_kospi_company_info `{Tabular dict_row}
    (dart_reader : DartReader) (corp_codes_df : list Listed.row)
    (output_dir : string) : M (list dict_row) :=
  match parse_dict_display data_append_display with
  | None =>
      raise (Exn SyntaxError "invalid syntax. Perhaps you forgot a comma?")
  | Some items =>
      print "Fetching detailed company info for KOSPI companies..." ;;;
      let total_corps := length corp_codes_df in
      data <- enrich_rows items dart_reader corp_codes_df [] ;;
      let kospi_codes_df := data in
      let output_filepath :=
        os_path_join output_dir "kospi_company_info.csv" in
      save_df_to_csv kospi_codes_df output_filepath false ;;;
      print ("Saved " +:+ pretty (length kospi_codes_df)
             +:+ " KOSPI company details to " +:+ output_filepath) ;;;
      ret kospi_codes_df
  end.

End Script.

(** ** Views of a run, used to state the properties *)

(** *** The code-directory fetcher *)

(** What the remote directory endpoint serves for a key, as the fetcher
    will find it. *)
Inductive verdict : Type :=
  | Unreachable (msg : string)   (* the request or its status check failed *)
  | NotZip                       (* the body is not a zip archive *)
  | Malformed (msg : string)     (* CORPCODE.xml is not well-formed *)
  | Document (root : Element)    (* CORPCODE.xml parsed to [root] *)
  | Anomalous.                   (* anything else *)

Definition status_is_error (r : Response) : bool :=
  (400 <=? status_code r)%Z && (status_code r <? 600)%Z.

Definition http_error_line (r : Response) : string :=
  pretty (status_code r)
  +:+ (if (status_code r <? 500)%Z then " Client Error: " else " Server Error: ")
  +:+ reason r +:+ " for url: " +:+ url r.

Definition directory (env : Env) (api_key : string) : verdict :=
  match http_get env
          ("https://opendart.fss.or.kr/api/corpCode.xml?crtfc_key=" +:+ api_key)
  with
  | Raised e =>
      if isinstance e RequestException then Unreachable (exn_msg e)
      else Anomalous
  | Returned r =>
      if status_is_error r then Unreachable (http_error_line r)
      else match body_break r with
           | Some _ => Anomalous
           | None =>
               match unzip env (String.concat EmptyString (body_chunks r)) with
               | None => NotZip
               | Some z =>
                   match member_data z "CORPCODE.xml" with
                   | None => Anomalous
                   | Some xml =>
                       match xml_parse env xml with
                       | inr msg => Malformed msg
                       | inl root => Document root
                       end
                   end
               end
           end
  end.

(** No operation on the file system fails. *)
Definition quiet_disk (env : Env) : Prop := ∀ op, os_fault env op = None.

(** The ticker test in the words of the specification: the field is
    present and has exactly six characters. *)
Definition six_char_ticker (corp : Element) : bool :=
  match findtext corp "stock_code" with
  | Some s => (String.length s =? 6)%nat
  | None => false
  end.

(** The table row of a directory record. *)
Definition listed_row (corp : Element) : Listed.row :=
  {| Listed.corp_code := findtext corp "corp_code";
     Listed.corp_name := findtext corp "corp_name";
     Listed.corp_eng_name := findtext corp "corp_eng_name";
     Listed.stock_code := findtext corp "stock_code" |}.

(** *** The persistence helper *)

(** The condition under which [save_df_to_csv] gets past its unguarded
    first line: the path has a directory part and creating it does not
    fail. *)
Definition parent_can_be_made (env : Env) (file_path : string) : bool :=
  negb (String.eqb (os_path_dirname file_path) EmptyString)
  && match os_fault env (Makedirs (os_path_dirname file_path)) with
     | None => true
     | Some _ => false
     end.

(** The first failure, if any, of writing one file in one go. *)
Definition write_fault (env : Env) (path : string) : option exn :=
  match os_fault env (OpenWrite path) with
  | Some e => Some e
  | None => os_fault env (FWrite path)
  end.

Definition save_error_line (file_path : string) (e : exn) : string :=
  "Error saving DataFrame to CSV " +:+ file_path +:+ ": " +:+ exn_msg e.

(** [save_df_to_csv] returns: the directory can be made and the write, if
    it fails, fails with an instance of [Exception]. *)
Definition save_returns (env : Env) (file_path : string) : bool :=
  parent_can_be_made env file_path
  && match write_fault env file_path with
     | Some e => isinstance e Exception
     | None => true
     end.

(** The output path of the fetcher (line 109). *)
Definition listed_csv (output_dir : string) : string :=
  os_path_join output_dir "listed_corp_codes.csv".

(** The diagnostic of a soft failure of the fetcher (lines 64, 84, 93). *)
Definition soft_failure_line (v : verdict) : option string :=
  match v with
  | Unreachable msg => Some ("Error fetching corporation codes: " +:+ msg)
  | NotZip =>
      Some "Error: Downloaded file is not a valid zip file. Check API key or response content."
  | Malformed msg => Some ("Error parsing CORPCODE.xml: " +:+ msg)
  | Document _ | Anomalous => None
  end.

(** Whether the fetcher gets as far as the disk. *)
Definition disk_needed (v : verdict) : bool :=
  match v with
  | Unreachable _ => false
  | _ => true
  end.

(** *** Runs from different worlds *)

(** Two worlds hold the same content at the paths of [P]. *)
Definition agree (P : gset string) (w1 w2 : World) : Prop :=
  ∀ p, p ∈ P → files w1 !! p = files w2 !! p.

(** [w'] is [w] with the files of [delta] written over it and the
    directories of [made] added. *)
Definition overlaid (delta : gmap string string) (made : gset string)
    (w w' : World) : Prop :=
  files w' = delta ∪ files w ∧ dirs w' = made ∪ dirs w.

(** A program whose outcome and whose writes are the same from any two
    worlds that agree on [P]; when it returns it has written the paths of
    [Q]. *)
Definition steady {A} (P Q : gset string) (m : M A) : Prop :=
  ∀ w1 w2, agree P w1 w2 →
    ∃ o delta made,
      fst (m w1) = o ∧ fst (m w2) = o
      ∧ overlaid delta made w1 (snd (m w1))
      ∧ overlaid delta made w2 (snd (m w2))
      ∧ (∀ a, o = Returned a → Q ⊆ dom delta).

(** The first line either stage prints (lines 58 and 129). *)
Definition fetch_banner : string :=
  "Fetching all corporation codes from OpenDART...".

Definition enrich_banner : string :=
  "Fetching detailed company info for KOSPI companies...".

(** ** Sample runs *)

(** Small environments, tables and clients on which the properties below
    are exercised. *)
Module Scenario.

(** A console and a disk with nothing on them. *)
Definition blank : World := mkWorld [] [] ∅ ∅ [].

(** A sample rendering of the two tables: a header line, then one line
    per row, comma-separated, each line led by the row label when [index]
    is set. *)
Definition newline : string := String "010"%char EmptyString.

Definition csv_line (index : bool) (label : string) (cells : list string)
    : string :=
  String.concat "," (if index then label :: cells else cells).

Definition csv_text (header : list string) (rows : list (list pyval))
    (index : bool) : string :=
  String.concat newline
    (csv_line index EmptyString header
       :: imap (fun i cells =>
                  csv_line index (pretty i) (map (default EmptyString) cells))
               rows).

Definition listed_text : Tabular Listed.row :=
  fun df index =>
    csv_text ["corp_code"; "corp_name"; "corp_eng_name"; "stock_code"]
      (map (fun r => [Listed.corp_code r; Listed.corp_name r;
                      Listed.corp_eng_name r; Listed.stock_code r]) df)
      index.

Definition kospi_text : Tabular Kospi.row :=
  fun df index =>
    csv_text ["corp_name"; "corp_code"; "stock_code"; "ceo_name";
              "industry_code"; "established_date"; "ir_url";
              "corp_reg_number"; "business_no"]
      (map (fun r => [Kospi.corp_name r; Kospi.corp_code r;
                      Kospi.stock_code r; Kospi.ceo_name r;
                      Kospi.industry_code r; Kospi.established_date r;
                      Kospi.ir_url r; Kospi.corp_reg_number r;
                      Kospi.business_no r]) df)
      index.

(** A directory document of five records: three with a six-character
    ticker, one with a blank ticker, one without the field. *)
Definition leaf (name value : string) : Element :=
  Elem name (Some value) [].

Definition corp (code name eng ticker : string) : Element :=
  Elem "list" None
    [leaf "corp_code" code; leaf "corp_name" name;
     leaf "corp_eng_name" eng; leaf "stock_code" ticker].

Definition root : Element :=
  Elem "result" None
    [corp "00000001" "Alpha" "Alpha Co" "000010";
     corp "00000002" "Beta" "Beta Co" " ";
     Elem "list" None
       [leaf "corp_code" "00000003"; leaf "corp_name" "Gamma";
        leaf "corp_eng_name" "Gamma Co"];
     corp "00000004" "Delta" "Delta Co" "000040";
     corp "00000005" "Epsilon" "Epsilon Co" "000050"].

(** An endpoint that serves that document, zipped, in two chunks. *)
Definition response_to (u : string) : Response :=
  mkResponse 200 "OK" u ["PK"; "archive"] None.

Definition served : Env :=
  mkEnv (fun u => Returned (response_to u))
        (fun _ => None)
        (fun bytes =>
           if String.eqb bytes "PKarchive"
           then Some [("CORPCODE.xml", "<result>")] else None)
        (fun text =>
           if String.eqb text "<result>" then inl root
           else inr "syntax error: line 1, column 0").

(** The endpoint cannot be reached. *)
Definition unreachable : Env :=
  mkEnv (fun _ => Raised (Exn RequestsConnectionError
                            "Max retries exceeded with url"))
        (os_fault served) (unzip served) (xml_parse served).

(** The endpoint answers with an error page, which is no archive. *)
Definition error_page : Env :=
  mkEnv (fun u => Returned (mkResponse 200 "OK" u ["{status: 010}"] None))
        (os_fault served) (unzip served) (xml_parse served).

(** The archive holds a document that is not well-formed. *)
Definition garbled : Env :=
  mkEnv (http_get served) (os_fault served)
        (fun _ => Some [("CORPCODE.xml", "<result")])
        (xml_parse served).

(** The connection drops while the body is being streamed. *)
Definition dropped : Env :=
  mkEnv (fun u => Returned
                    (mkResponse 200 "OK" u ["PK"]
                       (Some (Exn ChunkedEncodingError
                                "Connection broken: IncompleteRead"))))
        (os_fault served) (unzip served) (xml_parse served).

(** The table of listed companies that the served document gives. *)
Definition listed : list Listed.row :=
  [Listed.mk (Some "00000001") (Some "Alpha") (Some "Alpha Co") (Some "000010");
   Listed.mk (Some "00000004") (Some "Delta") (Some "Delta Co") (Some "000040");
   Listed.mk (Some "00000005") (Some "Epsilon") (Some "Epsilon Co") (Some "000050")].

(** A detail response. *)
Definition detail (cls name code ticker : string) : Info :=
  Some (list_to_map
          [("corp_cls", Some cls); ("corp_name", Some name);
           ("corp_code", Some code); ("stock_code", Some ticker);
           ("ceo_nm", Some "Kim"); ("induty_code", Some "264");
           ("est_dt", Some "19690113"); ("ir_url", None);
           ("jurir_no", Some "1301110006246");
           ("bizr_no", Some "1248100998")]).

(** Five rows for the enricher, and a client that fails on the second,
    finds two entities of the target tier, one of another tier and one
    whose flag is the sentinel in lower case. *)
Definition five : list Listed.row :=
  [Listed.mk (Some "A1") (Some "Alpha") None (Some "000010");
   Listed.mk (Some "B2") (Some "Beta") None (Some "000020");
   Listed.mk (Some "C3") (Some "Gamma") None (Some "000030");
   Listed.mk (Some "D4") (Some "Delta") None (Some "000040");
   Listed.mk (Some "E5") (Some "Epsilon") None (Some "000050")].

Definition client : DartReader :=
  fun _ key =>
    if bool_decide (key = Some "A1")
    then Returned (detail "Y" "Alpha Holdings" "A1" "000011")
    else if bool_decide (key = Some "B2")
    then Raised (Exn Timeout "Read timed out.")
    else if bool_decide (key = Some "C3")
    then Returned (detail "K" "Gamma" "C3" "000030")
    else if bool_decide (key = Some "D4")
    then Returned (detail "Y" "Delta" "D4" "000040")
    else Returned (detail "y" "Epsilon" "E5" "000050").

(** A sample rendering of a table of dicts: the keys of the first row
    head the columns. *)
Definition details_text : Tabular dict_row :=
  fun df index =>
    csv_text (match df with row :: _ => map fst row | [] => [] end)
      (map (map snd) df) index.

End Scenario.

(** ** Further views *)

(** The address the fetcher requests (line 59). *)
Definition corp_code_url (api_key : string) : string :=
  "https://opendart.fss.or.kr/api/corpCode.xml?crtfc_key=" +:+ api_key.

(** The paths of the raw artifacts of the fetcher (lines 67-71). *)
Definition corp_data_dir (output_dir : string) : string :=
  os_path_join output_dir "dart_corp_data".

Definition zip_path (output_dir : string) : string :=
  os_path_join (corp_data_dir output_dir) "CORPCODE.zip".

Definition xml_path (output_dir : string) : string :=
  os_path_join (corp_data_dir output_dir) "CORPCODE.xml".

(** The last line the fetcher prints (line 111). *)
Definition listed_saved_line (n : nat) (output_dir : string) : string :=
  "Saved " +:+ pretty n +:+ " listed corporation codes to "
  +:+ listed_csv output_dir.

(** ** Further sample runs *)

Module Cases.

(** The archive arrives whole but holds another member only. *)
Definition misnamed : Env :=
  mkEnv (http_get Scenario.served) (os_fault Scenario.served)
        (fun _ => Some [("corpcode.xml", "<result>")])
        (xml_parse Scenario.served).

(** The disk refuses to open the enriched table for writing. *)
Definition read_only_output : Env :=
  mkEnv (http_get Scenario.served)
        (fun op =>
           match op with
           | OpenWrite path =>
               if String.eqb path "data/raw/kospi_company_info.csv"
               then Some (Exn PermissionError
                            "[Errno 13] Permission denied: 'data/raw/kospi_company_info.csv'")
               else None
           | _ => None
           end)
        (unzip Scenario.served) (xml_parse Scenario.served).

(** A world in which an earlier run left its two tables. *)
Definition after_a_run : World :=
  mkWorld [] [] {["data"; "data/raw"]}
    {["data/raw/listed_corp_codes.csv" := "old listing";
      "data/raw/kospi_company_info.csv" := "old details"]}
    [].

End Cases.

(** * Properties *)

(** ** os.path: [lineage] does not run out of fuel *)

Lemma length_list_ascii_of_string (s : string) :
  length (list_ascii_of_string s) = String.length s.
Proof. induction s as [|c s IH]; simpl; [done|]. by rewrite IH. Qed.

Lemma length_string_of_list_ascii (l : list ascii) :
  String.length (string_of_list_ascii l) = length l.
Proof. induction l as [|c l IH]; simpl; [done|]. by rewrite IH. Qed.

Lemma lstrip_length P l : (length (lstrip P l) <= length l)%nat.
Proof.
  induction l as [|c l IH]; simpl; [done|]. destruct (P c); simpl; lia.
Qed.

Lemma rstrip_length P l : (length (rstrip P l) <= length l)%nat.
Proof.
  unfold rstrip. rewrite length_rev.
  etransitivity; [apply lstrip_length|]. by rewrite length_rev.
Qed.

Lemma rstrip_snoc_true P l c : P c = true → rstrip P (l ++ [c]) = rstrip P l.
Proof. intros Hc. unfold rstrip. rewrite rev_app_distr. simpl. by rewrite Hc. Qed.

Lemma rstrip_snoc_false P l c : P c = false → rstrip P (l ++ [c]) = l ++ [c].
Proof.
  intros Hc. unfold rstrip. rewrite rev_app_distr. simpl. rewrite Hc.
  change (c :: rev l) with ([c] ++ rev l).
  by rewrite rev_app_distr, rev_involutive.
Qed.

(** The directory part of a path that is not all slashes is shorter than
    the path. *)
Lemma os_path_dirname_shorter (p : string) :
  all_sep p = false →
  (String.length (os_path_dirname p) < String.length p)%nat.
Proof.
  unfold all_sep, os_path_dirname.
  rewrite <- (length_list_ascii_of_string p), length_string_of_list_ascii.
  induction (list_ascii_of_string p) as [|x l _] using rev_ind; [done|].
  intros Hall. rewrite length_app. simpl.
  destruct (is_sep x) eqn:Hx.
  - rewrite (rstrip_snoc_false (fun c => negb (is_sep c))) by (by rewrite Hx).
    rewrite Hall. rewrite bool_decide_eq_false_2 by (by destruct l). simpl.
    rewrite rstrip_snoc_true by done.
    pose proof (rstrip_length is_sep l). lia.
  - rewrite (rstrip_snoc_true (fun c => negb (is_sep c))) by (by rewrite Hx).
    pose proof (rstrip_length (fun c => negb (is_sep c)) l).
    pose proof (rstrip_length is_sep (rstrip (fun c => negb (is_sep c)) l)).
    destruct (_ && _); lia.
Qed.

Lemma lineage_upto_enough : ∀ n m name,
  (String.length name <= n)%nat → (String.length name <= m)%nat →
  lineage_upto n name = lineage_upto m name.
Proof.
  induction n as [|n IH]; intros [|m] name Hn Hm; simpl; try done.
  - destruct name; [done|simpl in Hn; lia].
  - destruct name; [done|simpl in Hm; lia].
  - destruct (all_sep name) eqn:Hall; [done|]. f_equal.
    pose proof (os_path_dirname_shorter name Hall). apply IH; lia.
Qed.

(** [lineage] is the path followed by the lineage of its directory part,
    up to the root or the working directory. *)
Lemma lineage_unfold (name : string) :
  lineage name =
    if all_sep name then [] else name :: lineage (os_path_dirname name).
Proof.
  unfold lineage. destruct name as [|c s]; [done|].
  cbn [String.length lineage_upto].
  destruct (all_sep (String c s)) eqn:Hall; [done|]. f_equal.
  pose proof (os_path_dirname_shorter _ Hall) as Hlt. cbn [String.length] in Hlt.
  apply lineage_upto_enough; lia.
Qed.

Example lineage_of_the_archive_directory :
  lineage (os_path_join BASE_DATA_DIR "dart_corp_data")
  = ["data/raw/dart_corp_data"; "data/raw"; "data"].
Proof. reflexivity. Qed.

(** ** Worlds *)

Lemma world_eta (w : World) :
  mkWorld (stdout w) (naps w) (dirs w) (files w) (asked w) = w.
Proof. by destruct w. Qed.

Ltac tidy_world :=
  cbn [stdout naps dirs files asked
       with_stdout with_naps with_dirs with_files with_asked];
  unfold with_stdout, with_naps, with_dirs, with_files, with_asked,
    fetch_banner, enrich_banner;
  cbn [stdout naps dirs files asked];
  rewrite <- ?app_assoc; cbn [app].

(** ** save_df_to_csv *)

Section SaveFacts.

Context (env : Env) {R : Type} `{Tabular R}.

(** Directory creation fails: the error leaves [save_df_to_csv] as it
    came, nothing is printed and nothing is written. *)
Lemma save_df_to_csv_unguarded (df : list R) file_path index w e w1 :
  os_makedirs env (os_path_dirname file_path) w = (Raised e, w1) →
  save_df_to_csv env df file_path index w = (Raised e, w) ∧ w1 = w.
Proof.
  unfold save_df_to_csv, bind, os_makedirs.
  destruct (String.eqb _ _).
  - intros [= <- <-]. done.
  - destruct (os_fault env _); intros [= <- <-] || intros [=]. done.
Qed.

Lemma os_makedirs_returns name w :
  name ≠ EmptyString → os_fault env (Makedirs name) = None →
  os_makedirs env name w =
    (Returned tt, with_dirs (fun ds => list_to_set (lineage name) ∪ ds) w).
Proof.
  intros Hne Hq. unfold os_makedirs. rewrite Hq.
  destruct (String.eqb_spec name EmptyString); [done|done].
Qed.

Lemma parent_can_be_made_true file_path :
  parent_can_be_made env file_path = true →
  os_path_dirname file_path ≠ EmptyString
  ∧ os_fault env (Makedirs (os_path_dirname file_path)) = None.
Proof.
  unfold parent_can_be_made. intros [Hd Hf]%andb_prop. split.
  - intros Heq. rewrite Heq in Hd. discriminate.
  - by destruct (os_fault env _).
Qed.

(** Writing a file in one go, by cases on [write_fault]. *)
Lemma write_whole path text w :
  (open_wb env path ;;; f_write env path text) w =
    match write_fault env path with
    | None => (Returned tt, with_files (insert path text) w)
    | Some e =>
        (Raised e,
         match os_fault env (OpenWrite path) with
         | Some _ => w
         | None => with_files (insert path EmptyString) w
         end)
    end.
Proof.
  unfold bind, open_wb, f_write, write_fault.
  destruct (os_fault env (OpenWrite path)); [done|].
  destruct (os_fault env (FWrite path)); [done|].
  unfold with_files; simpl. rewrite lookup_insert_eq, insert_insert_eq. done.
Qed.

(** The closed form of [save_df_to_csv] once the directory can be made. *)
Lemma save_df_to_csv_run (df : list R) file_path index w :
  parent_can_be_made env file_path = true →
  let w1 :=
    with_dirs (fun ds => list_to_set (lineage (os_path_dirname file_path)) ∪ ds) w in
  save_df_to_csv env df file_path index w =
    match write_fault env file_path with
    | None =>
        (Returned tt,
         with_files (insert file_path (to_csv_text df index)) w1)
    | Some e =>
        let w2 := match os_fault env (OpenWrite file_path) with
                  | Some _ => w1
                  | None => with_files (insert file_path EmptyString) w1
                  end in
        if isinstance e Exception
        then (Returned tt,
              with_stdout (fun out => out ++ [save_error_line file_path e]) w2)
        else (Raised e, w2)
    end.
Proof.
  intros [Hne Hq]%parent_can_be_made_true w1.
  unfold save_df_to_csv, bind at 1. rewrite os_makedirs_returns by done.
  fold w1. unfold try_except, DataFrame_to_csv. rewrite write_whole.
  destruct (write_fault env file_path) as [e|]; [|done].
  destruct (isinstance e Exception); done.
Qed.

End SaveFacts.

(** ** get_listed_corp_codes *)

Lemma append_cons c (s t : string) : String c s +:+ t = String c (s +:+ t).
Proof. reflexivity. Qed.

Lemma append_empty_r (s : string) : s +:+ EmptyString = s.
Proof. induction s as [|c s IH]; [done|]. by rewrite append_cons, IH. Qed.

Lemma append_is_empty (a b : string) : a +:+ b = EmptyString → b = EmptyString.
Proof. destruct a; [done|]. rewrite append_cons. discriminate. Qed.

Lemma os_path_join_nonempty (a b : string) :
  b ≠ EmptyString → os_path_join a b ≠ EmptyString.
Proof.
  intros Hb. unfold os_path_join.
  destruct (String.prefix _ b); [done|].
  destruct (_ || _); intros Hj.
  - by apply append_is_empty in Hj.
  - apply append_is_empty in Hj. discriminate.
Qed.

Lemma concat_cons_empty (c : string) (cs : list string) :
  String.concat EmptyString (c :: cs) = c +:+ String.concat EmptyString cs.
Proof. destruct cs; [symmetry; apply append_empty_r|done]. Qed.

Lemma append_assoc (a b c : string) : (a +:+ b) +:+ c = a +:+ (b +:+ c).
Proof. induction a as [|x a IH]; [done|]. by rewrite !append_cons, IH. Qed.

Section FetchFacts.

Context (env : Env).

(** Appending the chunks of a body to an open file. *)
Lemma write_chunks_run path chunks : ∀ w c,
  os_fault env (FWrite path) = None →
  files w !! path = Some c →
  write_chunks env path chunks w =
    (Returned tt,
     with_files (insert path (c +:+ String.concat EmptyString chunks)) w).
Proof.
  induction chunks as [|chunk chunks IH]; intros w c Hq Hc.
  - simpl. unfold ret, with_files. rewrite append_empty_r.
    rewrite insert_id by done. by rewrite world_eta.
  - cbn [write_chunks]. unfold bind, f_write at 1. rewrite Hq.
    erewrite IH; [|done|apply lookup_insert_eq].
    unfold with_files; cbn [files stdout naps dirs asked].
    rewrite Hc, insert_insert_eq. cbn [default].
    by rewrite concat_cons_empty, append_assoc.
Qed.

(** Lines 74-76 for a body that arrives whole on a disk that takes it. *)
Lemma download_run path r w :
  os_fault env (OpenWrite path) = None →
  os_fault env (FWrite path) = None →
  body_break r = None →
  (open_wb env path ;;; download_to env path r) w =
    (Returned tt,
     with_files (insert path (String.concat EmptyString (body_chunks r))) w).
Proof.
  intros Ho Hw Hb. unfold bind at 1, open_wb. rewrite Ho.
  unfold download_to, bind.
  erewrite write_chunks_run; [|done|apply lookup_insert_eq].
  rewrite Hb. unfold ret, with_files; simpl. by rewrite insert_insert_eq.
Qed.

(** Lines 80-82 on a file that holds [content]. *)
Lemma unpack_run zip_path dir content line w :
  os_fault env (OpenRead zip_path) = None →
  write_fault env (os_path_join dir "CORPCODE.xml") = None →
  files w !! zip_path = Some content →
  (z <- ZipFile env zip_path ;;
   zip_extract env z "CORPCODE.xml" dir ;;;
   print line) w =
    match unzip env content with
    | None => (Raised (Exn BadZipFile "File is not a zip file"), w)
    | Some z =>
        match member_data z "CORPCODE.xml" with
        | None =>
            (Raised (Exn KeyError
                       "There is no item named 'CORPCODE.xml' in the archive"),
             w)
        | Some xml =>
            (Returned tt,
             with_stdout (fun out => out ++ [line])
               (with_files (insert (os_path_join dir "CORPCODE.xml") xml) w))
        end
    end.
Proof.
  intros Hr Hw Hc. unfold bind at 1, ZipFile, bind at 1, read_file.
  rewrite Hr, Hc. destruct (unzip env content) as [z|]; [|done].
  unfold ret, zip_extract. destruct (member_data z _) as [xml|]; [|done].
  unfold bind at 1. rewrite write_whole, Hw. done.
Qed.

Lemma ET_parse_run path xml w :
  os_fault env (OpenRead path) = None →
  files w !! path = Some xml →
  ET_parse env path w =
    match xml_parse env xml with
    | inl root => (Returned root, w)
    | inr msg => (Raised (Exn ParseError msg), w)
    end.
Proof.
  intros Hr Hc. unfold ET_parse, bind, read_file. rewrite Hr, Hc.
  by destruct (xml_parse env xml).
Qed.

(** Lines 61-62, by cases. *)
Lemma raise_for_status_run r w :
  raise_for_status r w =
    if status_is_error r
    then (Raised (Exn HTTPError (http_error_line r)), w)
    else (Returned tt, w).
Proof.
  unfold raise_for_status, status_is_error, http_error_line, raise, ret.
  destruct (Z.leb_spec 400 (status_code r)), (Z.ltb_spec (status_code r) 500),
    (Z.leb_spec 500 (status_code r)), (Z.ltb_spec (status_code r) 600);
    simpl; try done; lia.
Qed.

(** The loop of lines 97-106 is the filter of the specification. *)
Lemma collect_corp_six corp_list corp :
  collect_corp corp_list corp =
    corp_list ++ (if six_char_ticker corp then [listed_row corp] else []).
Proof.
  unfold collect_corp, six_char_ticker, listed_row, truthy, len_is.
  destruct (findtext corp "stock_code") as [s|]; simpl; [|by rewrite app_nil_r].
  destruct s as [|c s]; simpl; [by rewrite app_nil_r|].
  destruct (String.length s =? 5)%nat; [done|by rewrite app_nil_r].
Qed.

Lemma fold_collect_corp corps : ∀ corp_list,
  fold_left collect_corp corps corp_list =
    corp_list ++ map listed_row (List.filter six_char_ticker corps).
Proof.
  induction corps as [|corp corps IH]; intros corp_list; simpl.
  - by rewrite app_nil_r.
  - rewrite IH, collect_corp_six, <- app_assoc.
    by destruct (six_char_ticker corp).
Qed.

Lemma collect_listed_filter root :
  collect_listed root =
    map listed_row (List.filter six_char_ticker (findall root "list")).
Proof. unfold collect_listed. by rewrite fold_collect_corp. Qed.

End FetchFacts.

Section FetchRun.

Context (env : Env).

(** Lines 58-65: the request, its status check and the handler, before any
    continuation [rest]. *)
Lemma request_run {B} u (h : exn → M B) (rest : Response → M B) w :
  (print fetch_banner ;;;
   try_except
     (response <- requests_get env u ;;
      raise_for_status response ;;;
      ret response)
     RequestException h rest) w =
    let w0 := with_stdout (fun out => out ++ [fetch_banner]) w in
    match http_get env u with
    | Raised e =>
        if isinstance e RequestException then h e w0 else (Raised e, w0)
    | Returned r =>
        if status_is_error r
        then h (Exn HTTPError (http_error_line r)) w0
        else rest r w0
    end.
Proof.
  unfold bind at 1, print at 1, try_except, bind at 1, requests_get.
  cbv zeta. destruct (http_get env u) as [r|e]; [|done].
  unfold bind. rewrite raise_for_status_run.
  by destruct (status_is_error r).
Qed.

(** Lines 67-76 on a quiet disk, for a body that arrives whole. *)
Lemma stored_run {B} dir zip_path r (k : M B) w :
  quiet_disk env → dir ≠ EmptyString → body_break r = None →
  (os_makedirs env dir ;;; open_wb env zip_path ;;;
   download_to env zip_path r ;;; k) w =
    k (with_files
         (insert zip_path (String.concat EmptyString (body_chunks r)))
         (with_dirs (fun ds => list_to_set (lineage dir) ∪ ds) w)).
Proof.
  intros Hq Hdir Hbreak. unfold bind at 1.
  rewrite os_makedirs_returns by done.
  pose proof (download_run env zip_path r
    (with_dirs (fun ds => list_to_set (lineage dir) ∪ ds) w)
    (Hq _) (Hq _) Hbreak) as Hd.
  unfold bind at 1 in Hd. unfold bind at 1.
  destruct (open_wb env zip_path _) as [[[]|e] w1]; [|done].
  unfold bind at 1. by rewrite Hd.
Qed.

(** Lines 79-85 on a quiet disk. *)
Lemma unpack_try_run {B} zip_path dir content line
    (h : exn → M B) (k : unit → M B) w :
  quiet_disk env →
  files w !! zip_path = Some content →
  try_except
    (z <- ZipFile env zip_path ;;
     zip_extract env z "CORPCODE.xml" dir ;;;
     print line)
    BadZipFile h k w =
    match unzip env content with
    | None => h (Exn BadZipFile "File is not a zip file") w
    | Some z =>
        match member_data z "CORPCODE.xml" with
        | None =>
            (Raised (Exn KeyError
                       "There is no item named 'CORPCODE.xml' in the archive"),
             w)
        | Some xml =>
            k tt
              (with_stdout (fun out => out ++ [line])
                 (with_files (insert (os_path_join dir "CORPCODE.xml") xml) w))
        end
    end.
Proof.
  intros Hq Hc. unfold try_except.
  erewrite unpack_run; [|apply Hq|unfold write_fault; by rewrite !Hq|done].
  destruct (unzip env content) as [z|]; [|done].
  by destruct (member_data z _).
Qed.

(** Lines 89-94 on a quiet disk. *)
Lemma parse_try_run {B} path xml (h : exn → M B) (k : Element → M B) w :
  quiet_disk env →
  files w !! path = Some xml →
  try_except (ET_parse env path) ParseError h k w =
    match xml_parse env xml with
    | inl root => k root w
    | inr msg => h (Exn ParseError msg) w
    end.
Proof.
  intros Hq Hc. unfold try_except.
  erewrite ET_parse_run; [|apply Hq|done].
  by destruct (xml_parse env xml).
Qed.

Context `{Tabular Listed.row}.

(** What the fetcher does, by the verdict on what the endpoint serves. *)
Lemma get_listed_corp_codes_run api_key output_dir w :
  let run := get_listed_corp_codes env api_key output_dir in
  match directory env api_key with
  | Unreachable msg =>
      run w =
        (Returned [],
         with_stdout
           (fun out =>
              out ++ [fetch_banner; "Error fetching corporation codes: " +:+ msg])
           w)
  | NotZip =>
      quiet_disk env →
      ∃ w', run w = (Returned [], w')
            ∧ stdout w' = stdout w ++
                [fetch_banner;
                 "Error: Downloaded file is not a valid zip file. Check API key or response content."]
  | Malformed msg =>
      quiet_disk env →
      ∃ w' line, run w = (Returned [], w')
            ∧ stdout w' = stdout w ++
                [fetch_banner; line; "Error parsing CORPCODE.xml: " +:+ msg]
  | Document root =>
      quiet_disk env →
      os_path_dirname (listed_csv output_dir) ≠ EmptyString →
      ∃ w' line, run w = (Returned (collect_listed root), w')
            ∧ stdout w' = stdout w ++
                [fetch_banner; line;
                 "Saved " +:+ pretty (length (collect_listed root))
                 +:+ " listed corporation codes to " +:+ listed_csv output_dir]
            ∧ files w' !! listed_csv output_dir
              = Some (to_csv_text (collect_listed root) false)
  | Anomalous => True
  end.
Proof.
  intros run. subst run. unfold directory, get_listed_corp_codes, listed_csv.
  fold fetch_banner. rewrite request_run. cbv zeta.
  destruct (http_get env _) as [r|e].
  2:{ destruct (isinstance e RequestException); [|done].
      unfold bind, print, ret. by tidy_world. }
  destruct (status_is_error r).
  { unfold bind, print, ret. by tidy_world. }
  destruct (body_break r) eqn:Hbreak; [done|].
  assert (os_path_join output_dir "dart_corp_data" ≠ EmptyString) as Hcdp
    by (by apply os_path_join_nonempty).
  destruct (unzip env _) as [z|] eqn:Hz.
  2:{ intros Hq. rewrite stored_run by done.
      erewrite unpack_try_run; [|done|apply lookup_insert_eq].
      rewrite Hz. unfold bind, print, ret.
      eexists. split; [reflexivity|]. by tidy_world. }
  destruct (member_data z _) as [xml|] eqn:Hm; [|done].
  destruct (xml_parse env xml) as [root|msg] eqn:Hx.
  - intros Hq Hdir. rewrite stored_run by done.
    erewrite unpack_try_run; [|done|apply lookup_insert_eq].
    rewrite Hz, Hm.
    erewrite parse_try_run; [|done|apply lookup_insert_eq].
    rewrite Hx. unfold bind at 1.
    rewrite save_df_to_csv_run.
    2:{ unfold parent_can_be_made. rewrite Hq.
        by destruct (String.eqb_spec
                       (os_path_dirname
                          (os_path_join output_dir "listed_corp_codes.csv"))
                       EmptyString). }
    cbv zeta. unfold write_fault. rewrite !Hq.
    unfold bind, print, ret. eexists _, _. split; [reflexivity|]. split.
    + by tidy_world.
    + tidy_world. apply lookup_insert_eq.
  - intros Hq. rewrite stored_run by done.
    erewrite unpack_try_run; [|done|apply lookup_insert_eq].
    rewrite Hz, Hm.
    erewrite parse_try_run; [|done|apply lookup_insert_eq].
    rewrite Hx. unfold bind, print, ret.
    eexists _, _. split; [reflexivity|]. by tidy_world.
Qed.

End FetchRun.

(** ** Runs from different worlds *)

Section Steady.

Context (env : Env).

Lemma overlaid_refl w : overlaid ∅ ∅ w w.
Proof. split; by rewrite (left_id_L ∅ (∪)). Qed.

Lemma overlaid_trans d1 m1 d2 m2 w w' w'' :
  overlaid d1 m1 w w' → overlaid d2 m2 w' w'' →
  overlaid (d2 ∪ d1) (m2 ∪ m1) w w''.
Proof.
  intros [Hf1 Hd1] [Hf2 Hd2]. split.
  - by rewrite Hf2, Hf1, (assoc_L (∪)).
  - by rewrite Hd2, Hd1, (assoc_L (∪)).
Qed.

Lemma agree_overlaid (P Q : gset string) d m m' w1 w2 w1' w2' :
  agree P w1 w2 → overlaid d m w1 w1' → overlaid d m' w2 w2' →
  Q ⊆ dom d → agree (P ∪ Q) w1' w2'.
Proof.
  intros Ha [Hf1 _] [Hf2 _] HQ p Hp. rewrite Hf1, Hf2.
  destruct (d !! p) as [v|] eqn:Hd.
  { by rewrite !(lookup_union_Some_l _ _ _ v) by done. }
  rewrite !lookup_union_r by done. apply Ha.
  apply elem_of_union in Hp as [Hp|Hp]; [done|].
  apply HQ, elem_of_dom in Hp. rewrite Hd in Hp. by destruct Hp.
Qed.

Lemma steady_weaken {A} (P P' Q Q' : gset string) (m : M A) :
  steady P Q m → P ⊆ P' → Q' ⊆ Q → steady P' Q' m.
Proof.
  intros Hm HP HQ w1 w2 Ha.
  destruct (Hm w1 w2) as (o & d & mk & H1 & H2 & Ho1 & Ho2 & Hdom).
  { intros p Hp. apply Ha. clear -Hp HP. set_solver. }
  exists o, d, mk. split_and!; try done.
  intros a Hr. specialize (Hdom a Hr). clear -Hdom HQ. set_solver.
Qed.

(** A program that does not read or write the disk and always ends the
    same way. *)
Lemma steady_still {A} (P : gset string) (m : M A) o :
  (∀ w, fst (m w) = o ∧ files (snd (m w)) = files w ∧ dirs (snd (m w)) = dirs w) →
  steady P ∅ m.
Proof.
  intros Hm w1 w2 _. exists o, ∅, ∅.
  destruct (Hm w1) as (Ho1 & Hf1 & Hd1), (Hm w2) as (Ho2 & Hf2 & Hd2).
  unfold overlaid. split_and!; rewrite ?(left_id_L ∅ (∪)); done.
Qed.

Lemma steady_bind {A B} (P Q R S : gset string) (m : M A) (k : A → M B) :
  steady P Q m → (∀ a, steady (P ∪ Q) R (k a)) → S ⊆ Q ∪ R →
  steady P S (bind m k).
Proof.
  intros Hm Hk HS w1 w2 Ha.
  destruct (Hm w1 w2 Ha) as (o & d & mk & H1 & H2 & Ho1 & Ho2 & Hdom).
  unfold bind.
  destruct (m w1) as [o1 w1'], (m w2) as [o2 w2']; simpl in *. subst o1 o2.
  destruct o as [a|e].
  - destruct (Hk a w1' w2') as (o' & d' & mk' & H1' & H2' & Ho1' & Ho2' & Hdom').
    { eapply agree_overlaid; eauto. }
    exists o', (d' ∪ d), (mk' ∪ mk). split_and!; try done.
    + eapply overlaid_trans; eassumption.
    + eapply overlaid_trans; eassumption.
    + intros b Hb. specialize (Hdom a eq_refl). specialize (Hdom' b Hb).
      rewrite dom_union_L. intros x Hx. apply HS in Hx.
      apply elem_of_union in Hx as [Hx|Hx]; apply elem_of_union;
        [right; by apply Hdom|left; by apply Hdom'].
  - exists (Raised e), d, mk. split_and!; done.
Qed.

Lemma steady_try {A B} (P Q R : gset string) (body : M A) cls
    (h : exn → M B) (rest : A → M B) :
  steady P Q body → (∀ e, steady P R (h e)) →
  (∀ a, steady (P ∪ Q) R (rest a)) →
  steady P R (try_except body cls h rest).
Proof.
  intros Hm Hh Hk w1 w2 Ha.
  destruct (Hm w1 w2 Ha) as (o & d & mk & H1 & H2 & Ho1 & Ho2 & Hdom).
  unfold try_except.
  destruct (body w1) as [o1 w1'], (body w2) as [o2 w2']; simpl in *.
  subst o1 o2.
  assert (∀ (k : M B) (P' : gset string),
            steady P' R k → agree P' w1' w2' →
            ∃ o' d' mk', fst (k w1') = o' ∧ fst (k w2') = o'
              ∧ overlaid d' mk' w1 (snd (k w1'))
              ∧ overlaid d' mk' w2 (snd (k w2'))
              ∧ (∀ b, o' = Returned b → R ⊆ dom d')) as Hgo.
  { intros k P' Hk' Ha'.
    destruct (Hk' w1' w2' Ha') as (o' & d' & mk' & H1' & H2' & Ho1' & Ho2' & Hdom').
    exists o', (d' ∪ d), (mk' ∪ mk). split_and!; try done.
    - eapply overlaid_trans; eassumption.
    - eapply overlaid_trans; eassumption.
    - intros b Hb. specialize (Hdom' b Hb). rewrite dom_union_L.
      clear -Hdom'. set_solver. }
  destruct o as [a|e].
  - apply (Hgo _ _ (Hk a)). eapply agree_overlaid; eauto.
  - destruct (isinstance e cls).
    + apply (Hgo _ _ (Hh e)).
      intros p Hp.
      eapply (agree_overlaid P ∅); eauto; set_solver.
    + exists (Raised e), d, mk. split_and!; done.
Qed.

Lemma steady_ret {A} P (a : A) : steady P ∅ (ret a).
Proof. by apply (steady_still _ _ (Returned a)). Qed.

Lemma steady_raise {A} P Q e : steady P Q (raise (A:=A) e).
Proof.
  intros w1 w2 _. exists (Raised e), ∅, ∅. unfold overlaid, raise; simpl.
  split_and!; rewrite ?(left_id_L ∅ (∪)); done.
Qed.

Lemma steady_print P msg : steady P ∅ (print msg).
Proof. by apply (steady_still _ _ (Returned tt)). Qed.

Lemma steady_requests_get P u : steady P ∅ (requests_get env u).
Proof. by apply (steady_still _ _ (http_get env u)). Qed.

Lemma steady_raise_for_status P r : steady P ∅ (raise_for_status r).
Proof.
  apply (steady_still _ _ (fst (raise_for_status r (mkWorld [] [] ∅ ∅ [])))).
  intros w. rewrite !raise_for_status_run. by destruct (status_is_error r).
Qed.

Lemma steady_os_makedirs P name : steady P ∅ (os_makedirs env name).
Proof.
  intros w1 w2 _. unfold os_makedirs.
  destruct (String.eqb name EmptyString).
  { eexists _, ∅, ∅. unfold overlaid. split_and!; rewrite ?(left_id_L ∅ (∪)); done. }
  destruct (os_fault env (Makedirs name)) as [e|].
  { eexists _, ∅, ∅. unfold overlaid. split_and!; rewrite ?(left_id_L ∅ (∪)); done. }
  eexists _, ∅, (list_to_set (lineage name)).
  unfold overlaid. split_and!; simpl; rewrite ?(left_id_L ∅ (∪)); done.
Qed.

Lemma steady_open_wb P path : steady P {[path]} (open_wb env path).
Proof.
  intros w1 w2 _. unfold open_wb.
  destruct (os_fault env (OpenWrite path)) as [e|].
  { eexists _, ∅, ∅. unfold overlaid. split_and!; rewrite ?(left_id_L ∅ (∪)); done. }
  eexists _, {[path := EmptyString]}, ∅.
  unfold overlaid. split_and!; simpl; rewrite ?(left_id_L ∅ (∪)); try done.
  - apply insert_union_singleton_l.
  - apply insert_union_singleton_l.
  - intros _ _. rewrite dom_singleton_L. done.
Qed.

Lemma steady_f_write (P : gset string) path chunk :
  path ∈ P → steady P ∅ (f_write env path chunk).
Proof.
  intros Hin w1 w2 Ha. unfold f_write.
  destruct (os_fault env (FWrite path)) as [e|].
  { eexists _, ∅, ∅. unfold overlaid. split_and!; rewrite ?(left_id_L ∅ (∪)); done. }
  eexists _, {[path := default EmptyString (files w1 !! path) +:+ chunk]}, ∅.
  unfold overlaid. split_and!; simpl; rewrite ?(left_id_L ∅ (∪)); try done.
  - apply insert_union_singleton_l.
  - rewrite (Ha path Hin). apply insert_union_singleton_l.
Qed.

Lemma steady_write_chunks (P : gset string) path chunks :
  path ∈ P → steady P ∅ (write_chunks env path chunks).
Proof.
  intros Hin. induction chunks as [|chunk chunks IH]; simpl.
  - apply steady_ret.
  - apply (steady_bind P ∅ ∅ ∅); [by apply steady_f_write| |set_solver].
    intros _. apply (steady_weaken P _ ∅ _); [apply IH| |]; set_solver.
Qed.

Lemma steady_read_file (P : gset string) path :
  path ∈ P → steady P ∅ (read_file env path).
Proof.
  intros Hin w1 w2 Ha. unfold read_file.
  destruct (os_fault env (OpenRead path)) as [e|].
  { eexists _, ∅, ∅. unfold overlaid. split_and!; rewrite ?(left_id_L ∅ (∪)); done. }
  rewrite <- (Ha path Hin).
  destruct (files w1 !! path);
    eexists _, ∅, ∅; unfold overlaid; split_and!; rewrite ?(left_id_L ∅ (∪)); done.
Qed.

Lemma steady_download (P : gset string) path r :
  path ∈ P → steady P ∅ (download_to env path r).
Proof.
  intros Hin. unfold download_to.
  apply (steady_bind P ∅ ∅ ∅); [by apply steady_write_chunks| |set_solver].
  intros _. destruct (body_break r); [apply steady_raise|apply steady_ret].
Qed.

Lemma steady_ZipFile (P : gset string) path :
  path ∈ P → steady P ∅ (ZipFile env path).
Proof.
  intros Hin. unfold ZipFile.
  apply (steady_bind P ∅ ∅ ∅); [by apply steady_read_file| |set_solver].
  intros content. destruct (unzip env content);
    [apply steady_ret|apply steady_raise].
Qed.

Lemma steady_write_whole (P : gset string) path text :
  steady P {[path]} (open_wb env path ;;; f_write env path text).
Proof.
  apply (steady_bind P {[path]} ∅ _); [apply steady_open_wb| |set_solver].
  intros _. apply steady_f_write. set_solver.
Qed.

Lemma steady_zip_extract (P : gset string) z member dir :
  steady P {[os_path_join dir member]} (zip_extract env z member dir).
Proof.
  unfold zip_extract. destruct (member_data z member).
  - apply steady_write_whole.
  - apply steady_raise.
Qed.

End Steady.

Section SteadyStages.

Context (env : Env).

Lemma steady_ET_parse (P : gset string) path :
  path ∈ P → steady P ∅ (ET_parse env path).
Proof.
  intros Hin. unfold ET_parse.
  apply (steady_bind P ∅ ∅ ∅); [by apply steady_read_file| |set_solver].
  intros content. destruct (xml_parse env content);
    [apply steady_ret|apply steady_raise].
Qed.

Lemma steady_say_and_return {A} (P : gset string) msg (a : A) :
  steady P ∅ (print msg ;;; ret a).
Proof.
  apply (steady_bind P ∅ ∅ ∅); [apply steady_print| |set_solver].
  intros _. apply steady_ret.
Qed.

Lemma steady_save_df_to_csv {R} `{Tabular R} (P : gset string)
    (df : list R) file_path index :
  steady P ∅ (save_df_to_csv env df file_path index).
Proof.
  unfold save_df_to_csv.
  apply (steady_bind P ∅ ∅ ∅); [apply steady_os_makedirs| |set_solver].
  intros _. apply (steady_try _ {[file_path]} ∅).
  - apply steady_write_whole.
  - intros e. apply steady_print.
  - intros a. apply steady_ret.
Qed.

Lemma steady_get_listed_corp_codes `{Tabular Listed.row} (P : gset string)
    api_key output_dir :
  steady P ∅ (get_listed_corp_codes env api_key output_dir).
Proof.
  unfold get_listed_corp_codes.
  apply (steady_bind P ∅ ∅ ∅); [apply steady_print| |set_solver].
  intros _. apply (steady_try _ ∅ ∅).
  - apply (steady_bind _ ∅ ∅ ∅); [apply steady_requests_get| |set_solver].
    intros r.
    apply (steady_bind _ ∅ ∅ ∅); [apply steady_raise_for_status| |set_solver].
    intros _. apply steady_ret.
  - intros e. apply steady_say_and_return.
  - intros r. cbv zeta.
    set (cdp := os_path_join output_dir "dart_corp_data").
    set (zp := os_path_join cdp "CORPCODE.zip").
    set (xp := os_path_join cdp "CORPCODE.xml").
    apply (steady_bind _ ∅ ∅ ∅); [apply steady_os_makedirs| |set_solver].
    intros _.
    apply (steady_bind _ {[zp]} ∅ ∅); [apply steady_open_wb| |set_solver].
    intros _.
    apply (steady_bind _ ∅ ∅ ∅); [apply steady_download; set_solver| |set_solver].
    intros _. apply (steady_try _ {[xp]} ∅).
    + apply (steady_bind _ ∅ {[xp]} _); [apply steady_ZipFile; set_solver| |set_solver].
      intros z.
      apply (steady_bind _ {[xp]} ∅ _); [apply steady_zip_extract| |set_solver].
      intros _. apply steady_print.
    + intros e. apply steady_say_and_return.
    + intros _. apply (steady_try _ ∅ ∅).
      * apply steady_ET_parse. set_solver.
      * intros e. apply steady_say_and_return.
      * intros root.
        apply (steady_bind _ ∅ ∅ ∅); [apply steady_save_df_to_csv| |set_solver].
        intros _. apply steady_say_and_return.
Qed.

End SteadyStages.

(** C8.  Two runs of the fetcher against the same environment (the same
    remote directory, the same behaviour of the disk) end the same way, with
    the same table, whatever the console and the disk held before; and a
    second run after a first one leaves every file and directory as the
    first run left it. *)
Theorem fetcher_is_deterministic (env : Env) `{Tabular Listed.row}
    (api_key output_dir : string) (w1 w2 : World) :
  let run := get_listed_corp_codes env api_key output_dir in
  fst (run w1) = fst (run w2)
  ∧ fst (run (snd (run w1))) = fst (run w1)
  ∧ files (snd (run (snd (run w1)))) = files (snd (run w1))
  ∧ dirs (snd (run (snd (run w1)))) = dirs (snd (run w1)).
Proof.
  intros run.
  pose proof (steady_get_listed_corp_codes env ∅ api_key output_dir) as Hs.
  split.
  - destruct (Hs w1 w2) as (o & d & mk & H1 & H2 & _); [by intros p Hp|].
    fold run in H1, H2. congruence.
  - destruct (Hs w1 (snd (run w1))) as (o & d & mk & H1 & H2 & [Hf1 Hd1] & [Hf2 Hd2] & _);
      [by intros p Hp|].
    fold run in H1, H2, Hf1, Hd1, Hf2, Hd2. split; [congruence|]. split.
    + rewrite Hf2, Hf1. by rewrite (assoc_L (∪)), (idemp_L (∪)).
    + rewrite Hd2, Hd1. by rewrite (assoc_L (∪)), (idemp_L (∪)).
Qed.

(** ** The claims about the persistence helper *)

(** C6 (as amended).  When the parent directory of the target path can be
    made, [save_df_to_csv] returns normally: the directory and every
    directory above it exist afterwards; if the write succeeds the file
    holds the table rendered without the index column and nothing is
    printed; if the write fails with an [Exception], one diagnostic line is
    printed instead. *)
Theorem save_df_to_csv_guards_the_write (env : Env) {R} `{Tabular R}
    (df : list R) (file_path : string) (w : World) :
  save_returns env file_path = true →
  ∃ w',
    save_df_to_csv env df file_path false w = (Returned tt, w')
    ∧ (∀ d, d ∈ lineage (os_path_dirname file_path) → d ∈ dirs w')
    ∧ match write_fault env file_path with
      | None =>
          files w' !! file_path = Some (to_csv_text df false)
          ∧ stdout w' = stdout w
      | Some e => stdout w' = stdout w ++ [save_error_line file_path e]
      end.
Proof.
  intros [Hp Hw]%andb_prop. rewrite save_df_to_csv_run by exact Hp. cbv zeta.
  destruct (write_fault env file_path) as [e|].
  - rewrite Hw. eexists. split; [reflexivity|].
    destruct (os_fault env (OpenWrite file_path)); tidy_world;
      (split; [|done]); intros d Hd;
      apply elem_of_union_l, elem_of_list_to_set; done.
  - eexists. split; [reflexivity|]. tidy_world. split.
    + intros d Hd. apply elem_of_union_l, elem_of_list_to_set. done.
    + split; [apply lookup_insert_eq|done].
Qed.

(** C10.  When the parent directory cannot be made (the path has no
    directory part, or [os.makedirs] fails), [save_df_to_csv] raises: the
    error of the unguarded first line reaches the caller, no diagnostic is
    printed and nothing is written.  For a path without a directory part
    the error is a [FileNotFoundError], which the guarded block would have
    caught. *)
Theorem save_df_to_csv_raises_from_makedirs (env : Env) {R} `{Tabular R}
    (df : list R) (file_path : string) (index : bool) (w : World) :
  parent_can_be_made env file_path = false →
  ∃ e,
    save_df_to_csv env df file_path index w = (Raised e, w)
    ∧ (os_path_dirname file_path = EmptyString →
       exn_cls e = FileNotFoundError ∧ isinstance e Exception = true).
Proof.
  unfold parent_can_be_made. intros Hp.
  destruct (os_makedirs env (os_path_dirname file_path) w) as [o w1] eqn:Hm.
  unfold os_makedirs in Hm.
  destruct (String.eqb_spec (os_path_dirname file_path) EmptyString) as [He|Hne].
  - injection Hm as <- <-. eexists. split.
    + eapply save_df_to_csv_unguarded. unfold os_makedirs.
      rewrite He. reflexivity.
    + done.
  - simpl in Hp.
    destruct (os_fault env (Makedirs (os_path_dirname file_path))) as [e|] eqn:Hf;
      [|done].
    injection Hm as <- <-. exists e. split; [|done].
    eapply save_df_to_csv_unguarded. unfold os_makedirs.
    rewrite Hf. by destruct (String.eqb_spec (os_path_dirname file_path) EmptyString).
Qed.

(** ** The claims about the code-directory fetcher *)

Lemma last_app_two {A} (l : list A) a b : last (l ++ [a; b]) = Some b.
Proof. change [a; b] with ([a] ++ [b]). by rewrite app_assoc, last_snoc. Qed.

Lemma last_app_three {A} (l : list A) a b c :
  last (l ++ [a; b; c]) = Some c.
Proof. change [a; b; c] with ([a; b] ++ [c]). by rewrite app_assoc, last_snoc. Qed.

(** C1 (as amended).  Each soft failure of the fetcher (the request or its
    status check fails with a [RequestException]; the stored body is not a
    zip archive; the extracted document does not parse) ends in the empty
    table, with the matching diagnostic as the last line printed.  The disk
    is assumed quiet in the two cases that reach it. *)
Theorem fetcher_soft_failures (env : Env) `{Tabular Listed.row}
    (api_key output_dir : string) (w : World) (diag : string) :
  soft_failure_line (directory env api_key) = Some diag →
  (disk_needed (directory env api_key) = true → quiet_disk env) →
  ∃ w',
    get_listed_corp_codes env api_key output_dir w = (Returned [], w')
    ∧ last (stdout w') = Some diag
    ∧ ∃ lines, stdout w' = stdout w ++ fetch_banner :: lines.
Proof.
  intros Hline Hdisk.
  pose proof (get_listed_corp_codes_run env api_key output_dir w) as Hrun.
  cbv zeta in Hrun.
  destruct (directory env api_key) as [msg| |msg|root|]; simpl in Hline;
    try discriminate; injection Hline as <-.
  - eexists. split; [exact Hrun|]. tidy_world. split.
    + apply last_app_two.
    + by eexists.
  - destruct (Hrun (Hdisk eq_refl)) as (w' & -> & Hout).
    exists w'. split; [done|]. rewrite Hout. split.
    + apply last_app_two.
    + by eexists.
  - destruct (Hrun (Hdisk eq_refl)) as (w' & line & -> & Hout).
    exists w'. split; [done|]. rewrite Hout. split.
    + apply last_app_three.
    + by eexists.
Qed.

Lemma six_char_ticker_spec corp :
  six_char_ticker corp = true ↔
  ∃ s, findtext corp "stock_code" = Some s ∧ String.length s = 6.
Proof.
  unfold six_char_ticker. destruct (findtext corp "stock_code") as [s|].
  - rewrite Nat.eqb_eq. split; [by exists s|]. by intros (s' & [= <-] & Hlen).
  - split; [done|]. by intros (s & ? & _).
Qed.

(** C2.  When the endpoint serves a document that parses to [root] and the
    disk is quiet, the fetcher returns the rows of exactly those records of
    the document whose ticker field is present and six characters long, in
    document order; every row it returns has such a ticker, and the table
    is what is written to the output file. *)
Theorem fetcher_keeps_six_char_tickers (env : Env) `{Tabular Listed.row}
    (api_key output_dir : string) (root : Element) (w : World) :
  directory env api_key = Document root →
  quiet_disk env →
  os_path_dirname (listed_csv output_dir) ≠ EmptyString →
  let records := findall root "list" in
  let table := map listed_row (List.filter six_char_ticker records) in
  ∃ w',
    get_listed_corp_codes env api_key output_dir w = (Returned table, w')
    ∧ (∀ corp, corp ∈ records →
         listed_row corp ∈ table ↔
         ∃ s, findtext corp "stock_code" = Some s ∧ String.length s = 6)
    ∧ Forall (fun row => ∃ s, Listed.stock_code row = Some s
                              ∧ String.length s = 6) table
    ∧ files w' !! listed_csv output_dir = Some (to_csv_text table false).
Proof.
  intros Hdoc Hq Hdir records table.
  pose proof (get_listed_corp_codes_run env api_key output_dir w) as Hrun.
  cbv zeta in Hrun. rewrite Hdoc in Hrun.
  destruct (Hrun Hq Hdir) as (w' & line & Hr & _ & Hfile).
  rewrite collect_listed_filter in Hr, Hfile. fold records table in Hr, Hfile.
  exists w'. split; [exact Hr|]. split; [|split; [|exact Hfile]].
  - intros corp Hin. rewrite <- six_char_ticker_spec. subst table. split.
    + intros (corp' & Heq & Hin')%list_elem_of_fmap.
      apply list_elem_of_In, filter_In in Hin' as [_ Hsix].
      unfold six_char_ticker in *.
      assert (findtext corp "stock_code" = findtext corp' "stock_code") as ->
        by exact (f_equal Listed.stock_code Heq).
      exact Hsix.
    + intros Hsix. apply list_elem_of_fmap. exists corp. split; [done|].
      apply list_elem_of_In, filter_In. split; [by apply list_elem_of_In|done].
  - subst table. apply Forall_forall.
    intros row (corp & -> & Hin)%list_elem_of_fmap.
    apply list_elem_of_In, filter_In in Hin as [_ Hsix].
    by apply six_char_ticker_spec in Hsix.
Qed.

(** ** The claims about the detail enricher *)

(** The dict display of lines 140-150 is not a dict display: after the
    ['ir_url'] item comes a string literal where a comma or the closing
    brace has to be. *)
Lemma data_append_display_is_rejected :
  parse_dict_display data_append_display = None.
Proof. reflexivity. Qed.

(** So the enricher is a [SyntaxError] for every client, table and
    directory, and leaves the world as it was. *)
Lemma get_kospi_company_info_is_rejected (env : Env) `{Tabular dict_row}
    (dart_reader : DartReader) (rows : list Listed.row) (output_dir : string)
    (w : World) :
  get_kospi_company_info env dart_reader rows output_dir w
  = (Raised (Exn SyntaxError "invalid syntax. Perhaps you forgot a comma?"), w).
Proof.
  unfold get_kospi_company_info.
  rewrite data_append_display_is_rejected. reflexivity.
Qed.

(** C3.  What the source does where the claim has a failed lookup skipped
    and the run carried on: for every client and table the enricher ends
    in a [SyntaxError]; no record is looked up, no diagnostic is printed
    and no table is returned. *)
Theorem enricher_reaches_no_lookup (env : Env) `{Tabular dict_row}
    (dart_reader : DartReader) (rows : list Listed.row) (output_dir : string)
    (w : World) :
  ∃ e w',
    get_kospi_company_info env dart_reader rows output_dir w = (Raised e, w')
    ∧ exn_cls e = SyntaxError
    ∧ asked w' = asked w
    ∧ stdout w' = stdout w.
Proof. rewrite get_kospi_company_info_is_rejected. by eexists _, _. Qed.

(** C4.  What the source does where the claim has the records of the
    target tier retained: whatever the responses are, the enricher returns
    no table, so no record is retained. *)
Theorem enricher_retains_no_record (env : Env) `{Tabular dict_row}
    (dart_reader : DartReader) (rows : list Listed.row) (output_dir : string)
    (w : World) :
  ∀ table w',
    get_kospi_company_info env dart_reader rows output_dir w
    ≠ (Returned table, w').
Proof. intros table w'. by rewrite get_kospi_company_info_is_rejected. Qed.

(** C5.  What the source does where the claim has one pause for every
    record: the enricher takes no pause at all, however many records the
    table has. *)
Theorem enricher_takes_no_pause (env : Env) `{Tabular dict_row}
    (dart_reader : DartReader) (rows : list Listed.row) (output_dir : string)
    (w : World) :
  naps (snd (get_kospi_company_info env dart_reader rows output_dir w))
  = naps w.
Proof. by rewrite get_kospi_company_info_is_rejected. Qed.

(** C7.  The record of lines 140-150: as written the display does not
    parse; with one comma after the ['ir_url'] item it is the display of
    nine items, each read from the detail response, the name, the code and
    the ticker among them. *)
Theorem record_display_lacks_one_comma :
  parse_dict_display data_append_display = None
  ∧ parse_dict_display
      (take 28 data_append_display ++ COMMA :: drop 28 data_append_display)
    = Some [("corp_name", "corp_name"); ("corp_code", "corp_code");
            ("stock_code", "stock_code"); ("ceo_name", "ceo_nm");
            ("industry_code", "induty_code"); ("established_date", "est_dt");
            ("ir_url", "ir_url"); ("corp_reg_number", "jurir_no");
            ("business_no", "bizr_no")].
Proof. split; reflexivity. Qed.

(** C9.  What the source does where the claim has the output follow the
    input order: the enricher returns no table and writes none, whatever
    the order of the input. *)
Theorem enricher_returns_no_table (env : Env) `{Tabular dict_row}
    (dart_reader : DartReader) (rows : list Listed.row) (output_dir : string)
    (w : World) :
  ∃ e w',
    get_kospi_company_info env dart_reader rows output_dir w = (Raised e, w')
    ∧ files w' = files w
    ∧ dirs w' = dirs w.
Proof. rewrite get_kospi_company_info_is_rejected. by eexists _, _. Qed.


(** ** The claims on the sample runs *)

(** An unreachable endpoint, an error page in place of the archive and a
    garbled document each give the empty table and their diagnostic. *)
Lemma fetcher_soft_failures_witness :
  (∃ w',
     get_listed_corp_codes Scenario.unreachable (H:=Scenario.listed_text)
       "KEY" BASE_DATA_DIR Scenario.blank = (Returned [], w')
     ∧ last (stdout w')
       = Some "Error fetching corporation codes: Max retries exceeded with url"
     ∧ ∃ lines, stdout w' = stdout Scenario.blank ++ fetch_banner :: lines)
  ∧ (∃ w',
       get_listed_corp_codes Scenario.error_page (H:=Scenario.listed_text)
         "KEY" BASE_DATA_DIR Scenario.blank = (Returned [], w')
       ∧ last (stdout w')
         = Some "Error: Downloaded file is not a valid zip file. Check API key or response content."
       ∧ ∃ lines, stdout w' = stdout Scenario.blank ++ fetch_banner :: lines)
  ∧ (∃ w',
       get_listed_corp_codes Scenario.garbled (H:=Scenario.listed_text)
         "KEY" BASE_DATA_DIR Scenario.blank = (Returned [], w')
       ∧ last (stdout w')
         = Some "Error parsing CORPCODE.xml: syntax error: line 1, column 0"
       ∧ ∃ lines, stdout w' = stdout Scenario.blank ++ fetch_banner :: lines).
Proof.
  split; [|split].
  - apply (fetcher_soft_failures Scenario.unreachable);
      [reflexivity|discriminate].
  - apply (fetcher_soft_failures Scenario.error_page);
      [reflexivity|intros _ op; reflexivity].
  - apply (fetcher_soft_failures Scenario.garbled);
      [reflexivity|intros _ op; reflexivity].
Defined.

(** The connection drops while the body is streamed: the error, a
    [RequestException], leaves the fetcher. *)
Lemma fetcher_raises_when_the_stream_breaks :
  fst (get_listed_corp_codes Scenario.dropped (H:=Scenario.listed_text)
         "KEY" BASE_DATA_DIR Scenario.blank)
  = Raised (Exn ChunkedEncodingError "Connection broken: IncompleteRead")
  ∧ isinstance (Exn ChunkedEncodingError "Connection broken: IncompleteRead")
      RequestException = true.
Proof. split; vm_compute; reflexivity. Qed.

(** The five-record document: the three records with a six-character
    ticker, in document order, returned and written. *)
Lemma fetcher_keeps_six_char_tickers_witness :
  ∃ w',
    get_listed_corp_codes Scenario.served (H:=Scenario.listed_text)
      "KEY" BASE_DATA_DIR Scenario.blank = (Returned Scenario.listed, w')
    ∧ files w' !! "data/raw/listed_corp_codes.csv"
      = Some (to_csv_text (Tabular:=Scenario.listed_text) Scenario.listed false).
Proof.
  destruct (fetcher_keeps_six_char_tickers Scenario.served (H:=Scenario.listed_text)
              "KEY" BASE_DATA_DIR Scenario.root Scenario.blank)
    as (w' & Hrun & _ & _ & Hfile);
    [reflexivity|intros op; reflexivity|discriminate|].
  exists w'. split; [exact Hrun|exact Hfile].
Defined.

(** Saving under [data/raw]: both directories are made and the file holds
    the table without an index column. *)
Lemma save_df_to_csv_guards_the_write_witness :
  ∃ w',
    save_df_to_csv Scenario.served (H:=Scenario.listed_text) Scenario.listed
      "data/raw/listed_corp_codes.csv" false Scenario.blank = (Returned tt, w')
    ∧ "data/raw" ∈ dirs w' ∧ "data" ∈ dirs w'
    ∧ files w' !! "data/raw/listed_corp_codes.csv"
      = Some (to_csv_text (Tabular:=Scenario.listed_text) Scenario.listed false)
    ∧ stdout w' = [].
Proof.
  destruct (save_df_to_csv_guards_the_write Scenario.served
              (H:=Scenario.listed_text) Scenario.listed
              "data/raw/listed_corp_codes.csv" Scenario.blank)
    as (w' & Hrun & Hdirs & Hfile & Hout); [reflexivity|].
  exists w'. split; [exact Hrun|].
  split; [apply Hdirs, list_elem_of_In; vm_compute; tauto|].
  split; [apply Hdirs, list_elem_of_In; vm_compute; tauto|].
  split; [exact Hfile|exact Hout].
Defined.

(** Saving to a bare file name raises. *)
Lemma save_df_to_csv_raises_on_a_bare_file_name :
  save_df_to_csv Scenario.served (H:=Scenario.listed_text) Scenario.listed
    "listed_corp_codes.csv" false Scenario.blank
  = (Raised (Exn FileNotFoundError "[Errno 2] No such file or directory: ''"),
     Scenario.blank).
Proof. vm_compute. reflexivity. Qed.

(** A bare file name has no directory part: the call raises a
    [FileNotFoundError]. *)
Lemma save_df_to_csv_raises_from_makedirs_witness :
  ∃ e,
    save_df_to_csv Scenario.served (H:=Scenario.kospi_text) []
      "kospi_company_info.csv" false Scenario.blank = (Raised e, Scenario.blank)
    ∧ exn_cls e = FileNotFoundError
    ∧ isinstance e Exception = true.
Proof.
  destruct (save_df_to_csv_raises_from_makedirs Scenario.served
              (H:=Scenario.kospi_text) [] "kospi_company_info.csv" false
              Scenario.blank) as (e & Hrun & Hcls); [reflexivity|].
  exists e. split; [exact Hrun|]. apply Hcls. reflexivity.
Defined.

(** The enricher on the five sample rows, with the sample client and a
    disk that holds the tables of an earlier run: a [SyntaxError], and the
    world is as it was. *)
Example enricher_on_the_sample_rows :
  get_kospi_company_info Scenario.served (H:=Scenario.details_text)
    Scenario.client Scenario.five "data/raw" Cases.after_a_run
  = (Raised (Exn SyntaxError "invalid syntax. Perhaps you forgot a comma?"),
     Cases.after_a_run).
Proof. reflexivity. Qed.

(** A refused open is reported and the call returns; the file of the
    earlier run stays. *)
Example save_df_to_csv_reports_a_refused_open :
  let run :=
    save_df_to_csv Cases.read_only_output (H:=Scenario.kospi_text) []
      "data/raw/kospi_company_info.csv" false Cases.after_a_run in
  fst run = Returned ()
  ∧ stdout (snd run)
    = ["Error saving DataFrame to CSV data/raw/kospi_company_info.csv: "
       +:+ "[Errno 13] Permission denied: 'data/raw/kospi_company_info.csv'"]
  ∧ files (snd run) = files Cases.after_a_run.
Proof. cbv zeta. split_and!; reflexivity. Qed.

(** * Further properties *)
(** ** The artifacts of the fetcher *)

Lemma append_inv_head (x s t : string) : x +:+ s = x +:+ t → s = t.
Proof.
  induction x as [|c x IH]; [done|]. rewrite !append_cons.
  intros [= Heq]. by apply IH.
Qed.

Lemma list_ascii_of_string_append (a b : string) :
  list_ascii_of_string (a +:+ b)
  = list_ascii_of_string a ++ list_ascii_of_string b.
Proof.
  induction a as [|c a IH]; [done|]. rewrite append_cons. simpl.
  by rewrite IH.
Qed.

(** [os.path.join(a, b)] ends in [b], after a stem that [a] decides. *)
Lemma os_path_join_stem (a : string) :
  ∃ x, ∀ b, String.prefix "/" b = false → os_path_join a b = x +:+ b.
Proof.
  exists (if String.eqb a EmptyString || endswith_sep a then a else a +:+ "/").
  intros b Hb. unfold os_path_join. rewrite Hb.
  destruct (_ || _); [done|]. by rewrite append_assoc.
Qed.

Lemma zip_path_ne_xml_path output_dir :
  zip_path output_dir ≠ xml_path output_dir.
Proof.
  unfold zip_path, xml_path.
  destruct (os_path_join_stem (corp_data_dir output_dir)) as [x Hx].
  rewrite !Hx by done. by intros [=]%append_inv_head.
Qed.

Lemma raw_path_ne_listed_csv output_dir :
  zip_path output_dir ≠ listed_csv output_dir
  ∧ xml_path output_dir ≠ listed_csv output_dir.
Proof.
  unfold zip_path, xml_path, listed_csv.
  destruct (os_path_join_stem (corp_data_dir output_dir)) as [x Hx].
  destruct (os_path_join_stem output_dir) as [y Hy].
  rewrite !Hx, Hy by done.
  split; intros Heq;
    apply (f_equal (fun s => last (list_ascii_of_string s))) in Heq;
    rewrite !list_ascii_of_string_append, !last_app in Heq;
    discriminate.
Qed.

Section Artifacts.

Context (env : Env) `{Tabular Listed.row}.

(** Lines 67-76 on a quiet disk, for a body whose transfer breaks. *)
Lemma broken_download_run {B} dir path r e (k : M B) w :
  quiet_disk env → dir ≠ EmptyString → body_break r = Some e →
  (os_makedirs env dir ;;; open_wb env path ;;;
   download_to env path r ;;; k) w =
    (Raised e,
     with_files (insert path (String.concat EmptyString (body_chunks r)))
       (with_dirs (fun ds => list_to_set (lineage dir) ∪ ds) w)).
Proof.
  intros Hq Hdir Hbreak. unfold bind at 1.
  rewrite os_makedirs_returns by done.
  unfold bind at 1, open_wb. rewrite Hq. unfold bind at 1, download_to, bind.
  erewrite write_chunks_run; [|done|apply lookup_insert_eq].
  rewrite Hbreak. unfold raise, with_files; simpl.
  by rewrite insert_insert_eq.
Qed.

(** X5.  When the request or its status check fails with a
    [RequestException], the fetcher leaves the disk as it found it (the
    tables of an earlier run stay) and prints its banner and one
    diagnostic. *)
Theorem fetcher_leaves_the_disk_when_unreachable
    (api_key output_dir msg : string) (w : World) :
  directory env api_key = Unreachable msg →
  ∃ w',
    get_listed_corp_codes env api_key output_dir w = (Returned [], w')
    ∧ files w' = files w ∧ dirs w' = dirs w
    ∧ stdout w' = stdout w ++
        [fetch_banner; "Error fetching corporation codes: " +:+ msg].
Proof.
  intros Hv.
  pose proof (get_listed_corp_codes_run env api_key output_dir w) as Hrun.
  cbv zeta in Hrun. rewrite Hv in Hrun. eexists. split; [exact Hrun|]. done.
Qed.

(** X6.  When the transfer of the body breaks, on a quiet disk, the
    error leaves the fetcher; the archive file holds the chunks that had
    arrived, the output table is not touched and nothing is printed after
    the banner. *)
Theorem fetcher_keeps_the_partial_download
    (api_key output_dir : string) (r : Response) (e : exn) (w : World) :
  http_get env (corp_code_url api_key) = Returned r →
  status_is_error r = false →
  body_break r = Some e →
  quiet_disk env →
  ∃ w',
    get_listed_corp_codes env api_key output_dir w = (Raised e, w')
    ∧ files w' !! zip_path output_dir
      = Some (String.concat EmptyString (body_chunks r))
    ∧ files w' !! listed_csv output_dir = files w !! listed_csv output_dir
    ∧ stdout w' = stdout w ++ [fetch_banner].
Proof.
  intros Hget Hs Hbreak Hq. unfold get_listed_corp_codes.
  fold fetch_banner (corp_code_url api_key). rewrite request_run. cbv zeta.
  rewrite Hget, Hs.
  rewrite (broken_download_run _ _ _ e)
    by (done || by apply os_path_join_nonempty).
  eexists. split; [reflexivity|]. tidy_world.
  fold (corp_data_dir output_dir) (zip_path output_dir).
  split; [apply lookup_insert_eq|]. split; [|done].
  apply lookup_insert_ne, raw_path_ne_listed_csv.
Qed.

(** X7.  When the archive is a zip file without a member named
    [CORPCODE.xml], on a quiet disk, the [KeyError] of [extract] leaves the
    fetcher: only [BadZipFile] is caught there.  The archive stays on disk,
    no document is extracted, the output table is not touched and no
    diagnostic is printed. *)
Theorem fetcher_raises_on_a_missing_member
    (api_key output_dir : string) (r : Response) (z : Archive) (w : World) :
  http_get env (corp_code_url api_key) = Returned r →
  status_is_error r = false →
  body_break r = None →
  unzip env (String.concat EmptyString (body_chunks r)) = Some z →
  member_data z "CORPCODE.xml" = None →
  quiet_disk env →
  ∃ e w',
    get_listed_corp_codes env api_key output_dir w = (Raised e, w')
    ∧ exn_cls e = KeyError
    ∧ files w' !! zip_path output_dir
      = Some (String.concat EmptyString (body_chunks r))
    ∧ files w' !! xml_path output_dir = files w !! xml_path output_dir
    ∧ files w' !! listed_csv output_dir = files w !! listed_csv output_dir
    ∧ stdout w' = stdout w ++ [fetch_banner].
Proof.
  intros Hget Hs Hbreak Hz Hm Hq. unfold get_listed_corp_codes.
  fold fetch_banner (corp_code_url api_key). rewrite request_run. cbv zeta.
  rewrite Hget, Hs.
  rewrite stored_run by (done || by apply os_path_join_nonempty).
  erewrite unpack_try_run; [|done|apply lookup_insert_eq].
  rewrite Hz, Hm. eexists _, _. split; [reflexivity|]. tidy_world.
  fold (corp_data_dir output_dir) (zip_path output_dir).
  split; [done|]. split; [apply lookup_insert_eq|].
  split; [|split; [|done]].
  - apply lookup_insert_ne, zip_path_ne_xml_path.
  - apply lookup_insert_ne, raw_path_ne_listed_csv.
Qed.

(** X8.  After a run that goes through, on a quiet disk, the archive file
    holds the body as received, the document file holds the member
    [CORPCODE.xml] and the output file holds the table without an index
    column, whatever the three files held before; the archive directory
    and the directories above it exist. *)
Theorem fetcher_artifacts
    (api_key output_dir : string) (r : Response) (z : Archive)
    (xml : string) (root : Element) (w : World) :
  http_get env (corp_code_url api_key) = Returned r →
  status_is_error r = false →
  body_break r = None →
  unzip env (String.concat EmptyString (body_chunks r)) = Some z →
  member_data z "CORPCODE.xml" = Some xml →
  xml_parse env xml = inl root →
  quiet_disk env →
  os_path_dirname (listed_csv output_dir) ≠ EmptyString →
  ∃ w',
    get_listed_corp_codes env api_key output_dir w
    = (Returned (collect_listed root), w')
    ∧ files w' !! zip_path output_dir
      = Some (String.concat EmptyString (body_chunks r))
    ∧ files w' !! xml_path output_dir = Some xml
    ∧ files w' !! listed_csv output_dir
      = Some (to_csv_text (collect_listed root) false)
    ∧ (∀ d, d ∈ lineage (corp_data_dir output_dir) → d ∈ dirs w')
    ∧ stdout w' = stdout w ++
        [fetch_banner;
         "CORPCODE.xml extracted to " +:+ xml_path output_dir;
         listed_saved_line (length (collect_listed root)) output_dir].
Proof.
  intros Hget Hs Hbreak Hz Hm Hx Hq Hdir. unfold get_listed_corp_codes.
  fold fetch_banner (corp_code_url api_key). rewrite request_run. cbv zeta.
  rewrite Hget, Hs.
  rewrite stored_run by (done || by apply os_path_join_nonempty).
  erewrite unpack_try_run; [|done|apply lookup_insert_eq].
  rewrite Hz, Hm.
  erewrite parse_try_run; [|done|apply lookup_insert_eq].
  rewrite Hx. unfold bind at 1.
  rewrite save_df_to_csv_run.
  2:{ unfold parent_can_be_made. rewrite Hq. unfold listed_csv in Hdir.
      by destruct (String.eqb_spec
                     (os_path_dirname
                        (os_path_join output_dir "listed_corp_codes.csv"))
                     EmptyString). }
  cbv zeta. unfold write_fault. rewrite !Hq.
  unfold bind, print, ret. eexists. split; [reflexivity|]. tidy_world.
  fold (corp_data_dir output_dir) (zip_path output_dir) (xml_path output_dir)
    (listed_csv output_dir).
  destruct (raw_path_ne_listed_csv output_dir) as [Hzc Hxc].
  pose proof (zip_path_ne_xml_path output_dir) as Hzx.
  split_and!.
  - rewrite lookup_insert_ne by done. rewrite lookup_insert_ne by done.
    apply lookup_insert_eq.
  - rewrite lookup_insert_ne by done. apply lookup_insert_eq.
  - apply lookup_insert_eq.
  - intros d Hd. apply elem_of_union_r, elem_of_union_l.
    by apply elem_of_list_to_set.
  - done.
Qed.

End Artifacts.

(** ** The further properties on the sample runs *)

(** The endpoint is down while the tables of an earlier run are on disk:
    they stay. *)
Lemma fetcher_leaves_the_disk_when_unreachable_witness :
  ∃ w',
    get_listed_corp_codes Scenario.unreachable (H:=Scenario.listed_text)
      "KEY" BASE_DATA_DIR Cases.after_a_run = (Returned [], w')
    ∧ files w' = files Cases.after_a_run
    ∧ dirs w' = dirs Cases.after_a_run
    ∧ stdout w' = stdout Cases.after_a_run ++
        [fetch_banner;
         "Error fetching corporation codes: " +:+ "Max retries exceeded with url"].
Proof.
  apply (fetcher_leaves_the_disk_when_unreachable Scenario.unreachable).
  reflexivity.
Defined.

(** The connection drops after the first chunk: that chunk is on disk. *)
Lemma fetcher_keeps_the_partial_download_witness :
  ∃ w',
    get_listed_corp_codes Scenario.dropped (H:=Scenario.listed_text)
      "KEY" BASE_DATA_DIR Cases.after_a_run
    = (Raised (Exn ChunkedEncodingError "Connection broken: IncompleteRead"), w')
    ∧ files w' !! "data/raw/dart_corp_data/CORPCODE.zip" = Some "PK"
    ∧ files w' !! "data/raw/listed_corp_codes.csv" = Some "old listing"
    ∧ stdout w' = [fetch_banner].
Proof.
  apply (fetcher_keeps_the_partial_download Scenario.dropped
           (H:=Scenario.listed_text) "KEY" BASE_DATA_DIR
           (mkResponse 200 "OK" (corp_code_url "KEY") ["PK"]
              (Some (Exn ChunkedEncodingError
                       "Connection broken: IncompleteRead")))
           (Exn ChunkedEncodingError "Connection broken: IncompleteRead")
           Cases.after_a_run);
    [reflexivity|reflexivity|reflexivity|intros op; reflexivity].
Defined.

(** The archive names its member in lower case. *)
Lemma fetcher_raises_on_a_missing_member_witness :
  ∃ e w',
    get_listed_corp_codes Cases.misnamed (H:=Scenario.listed_text)
      "KEY" BASE_DATA_DIR Cases.after_a_run = (Raised e, w')
    ∧ exn_cls e = KeyError
    ∧ files w' !! "data/raw/dart_corp_data/CORPCODE.zip" = Some "PKarchive"
    ∧ files w' !! "data/raw/dart_corp_data/CORPCODE.xml" = None
    ∧ files w' !! "data/raw/listed_corp_codes.csv" = Some "old listing"
    ∧ stdout w' = [fetch_banner].
Proof.
  apply (fetcher_raises_on_a_missing_member Cases.misnamed
           (H:=Scenario.listed_text) "KEY" BASE_DATA_DIR
           (Scenario.response_to (corp_code_url "KEY"))
           [("corpcode.xml", "<result>")] Cases.after_a_run);
    [reflexivity|reflexivity|reflexivity|reflexivity|reflexivity
    |intros op; reflexivity].
Defined.

(** A run that goes through replaces the listing of the earlier run. *)
Lemma fetcher_artifacts_witness :
  ∃ w',
    get_listed_corp_codes Scenario.served (H:=Scenario.listed_text)
      "KEY" BASE_DATA_DIR Cases.after_a_run = (Returned Scenario.listed, w')
    ∧ files w' !! "data/raw/dart_corp_data/CORPCODE.zip" = Some "PKarchive"
    ∧ files w' !! "data/raw/dart_corp_data/CORPCODE.xml" = Some "<result>"
    ∧ files w' !! "data/raw/listed_corp_codes.csv"
      = Some (to_csv_text (Tabular:=Scenario.listed_text) Scenario.listed false)
    ∧ "data/raw/dart_corp_data" ∈ dirs w'.
Proof.
  destruct (fetcher_artifacts Scenario.served (H:=Scenario.listed_text)
              "KEY" BASE_DATA_DIR
              (Scenario.response_to (corp_code_url "KEY"))
              [("CORPCODE.xml", "<result>")] "<result>" Scenario.root
              Cases.after_a_run)
    as (w' & Hrun & Hzip & Hxml & Hcsv & Hdirs & _);
    [reflexivity|reflexivity|reflexivity|reflexivity|reflexivity|reflexivity
    |intros op; reflexivity|discriminate|].
  exists w'. split; [exact Hrun|]. split; [exact Hzip|].
  split; [exact Hxml|]. split; [exact Hcsv|].
  apply Hdirs. apply list_elem_of_here.
Defined.
